(** * The raster pipeline of the Slope Analysis Portal

    A shallow embedding of [src/index.tsx] (its second variant,
    [src/unnamed/part_000], has the same pipeline line for line):
    tile-coordinate helpers, [performTerrainAnalysis] (tile range, mosaic
    assembly, slope computation and classification, clipping to the
    geometry) and the world file written by [handleDownload].

    The program computes with JavaScript Numbers.  The pipeline is written
    once over an interface of the Number operations it uses ([JSNumber]) and
    read at two instances: [B64.number], IEEE binary64 as the engine runs it,
    and [Exact.number], the real numbers the formulas are written for. *)

From Stdlib Require Import ZArith Lia Reals Lra Floats Ascii String.
From stdpp Require Import base list strings.

Local Open Scope Z_scope.

(** ** JavaScript Numbers *)

(** The operations of a Number the pipeline uses.  [lit] is an integer
    literal, [pow2 z] is [Math.pow(2, z)] at an integer [z], [NaN] is what an
    [undefined] array read becomes in arithmetic, [fround] the rounding a
    store into a [Float32Array] performs, and [toInteger] the integer a
    Number holds, where it holds one a loop counter can count to. *)
Class JSNumber (num : Type) : Type := {
  lit : Z -> num;
  add : num -> num -> num;
  sub : num -> num -> num;
  mul : num -> num -> num;
  div : num -> num -> num;
  neg : num -> num;
  ltb : num -> num -> bool;
  leb : num -> num -> bool;
  NaN : num;
  Math_PI : num;
  Math_floor : num -> num;
  Math_sqrt : num -> num;
  Math_atan : num -> num;
  Math_cos : num -> num;
  Math_tan : num -> num;
  Math_log : num -> num;
  Math_exp : num -> num;
  pow2 : Z -> num;
  fround : num -> num;
  toInteger : num -> option Z
}.

Declare Scope js_scope.
Delimit Scope js_scope with js.
Infix "+" := add : js_scope.
Infix "-" := sub : js_scope.
Infix "*" := mul : js_scope.
Infix "/" := div : js_scope.
Notation "- x" := (neg x) : js_scope.
Infix "<?" := ltb : js_scope.
Infix "<=?" := leb : js_scope.

(** ** Constants & Config *)

Definition TILE_ZOOM : Z := 12.
Definition TILE_SIZE : Z := 512.

Record SlopeRange := { max : Z; label : string; color : string }.

Definition SLOPE_RANGES : list SlopeRange :=
  [ {| max := 2;   label := "0° - 2°";   color := "#2ecc71" |};
    {| max := 5;   label := "2° - 5°";   color := "#58d68d" |};
    {| max := 9;   label := "5° - 9°";   color := "#82e0aa" |};
    {| max := 15;  label := "9° - 15°";  color := "#f7dc6f" |};
    {| max := 20;  label := "15° - 20°"; color := "#f1c40f" |};
    {| max := 25;  label := "20° - 25°"; color := "#f39c12" |};
    {| max := 30;  label := "25° - 30°"; color := "#e67e22" |};
    {| max := 35;  label := "30° - 35°"; color := "#d35400" |};
    {| max := 45;  label := "35° - 45°"; color := "#c0392b" |};
    {| max := 999; label := "> 45°";     color := "#922b21" |} ].

(** ** Typed arrays

    A typed array has a fixed length: a read out of range gives
    [undefined], a write out of range does nothing. *)

Definition ta_get {A} (a : list A) (i : Z) : option A :=
  if decide (0 <= i) then a !! Z.to_nat i else None.

Definition ta_set {A} (a : list A) (i : Z) (v : A) : list A :=
  if decide (0 <= i) then <[Z.to_nat i := v]> a else a.

(** [new Uint8Array(n)]: bytes, zero-initialised; a store wraps modulo 256. *)
Definition u8_new (n : Z) : list Z := replicate (Z.to_nat n) 0.
Definition u8_set (a : list Z) (i : Z) (v : Z) : list Z := ta_set a i (v mod 256).

(** ** chroma-js on the colours of the table

    [chroma(color).rgb()] of a hex colour ["#rrggbb"] or ["#rrggbbaa"] is
    its three colour bytes (the alpha digits are no part of [rgb()]). *)

Definition hex_digit (c : ascii) : option Z :=
  let n := Z.of_nat (nat_of_ascii c) in
  if decide (48 <= n <= 57) then Some (n - 48)
  else if decide (97 <= n <= 102) then Some (n - 87)
  else if decide (65 <= n <= 70) then Some (n - 55)
  else None.

Definition hex_byte (hi lo : ascii) : option Z :=
  h ← hex_digit hi; l ← hex_digit lo; Some (16 * h + l).

Definition chroma_rgb (c : string) : option (Z * Z * Z) :=
  match c with
  | String "#" (String r1 (String r0 (String g1 (String g0
      (String b1 (String b0 rest)))))) =>
      if decide (String.length rest = 0%nat ∨ String.length rest = 2%nat) then
        r ← hex_byte r1 r0; g ← hex_byte g1 g0; b ← hex_byte b1 b0;
        Some (r, g, b)
      else None
  | _ => None
  end.

(** ** How a run of an asynchronous function ends *)

Inductive outcome (A : Type) : Type :=
  | Done (a : A)
  | Throws (msg : string)
  | Hangs.
Arguments Done {A} a.
Arguments Throws {A} msg.
Arguments Hangs {A}.

(** The values a counter takes in [for (let i = lo; i <= hi; i++)]. *)
Inductive loopRange : Type :=
  | Empty
  | Range (a b : Z)
  | Endless.

Section Pipeline.
Context {num : Type} `{JSNumber num}.

(** [new Float32Array(n)], reads and writes. *)
Definition f32_new (n : Z) : list num := replicate (Z.to_nat n) (lit 0).
Definition f32_get (a : list num) (i : Z) : num := default NaN (ta_get a i).
Definition f32_set (a : list num) (i : Z) (v : num) : list num :=
  ta_set a i (fround v).

(** The literal [0.5]; the quotient is exact in binary64. *)
Definition half : num := (lit 1 / lit 2)%js.

(** *** Helper Functions *)

Definition lng2tile (lon : num) (zoom : Z) : num :=
  Math_floor ((lon + lit 180) / lit 360 * pow2 zoom)%js.

Definition lat2tile (lat : num) (zoom : Z) : num :=
  Math_floor ((lit 1 - Math_log (Math_tan (lat * Math_PI / lit 180)
                                 + lit 1 / Math_cos (lat * Math_PI / lit 180))
                       / Math_PI) / lit 2 * pow2 zoom)%js.

Definition tile2lng (x : num) (z : Z) : num :=
  (x / pow2 z * lit 360 - lit 180)%js.

Definition tile2lat (y : num) (z : Z) : num :=
  let n := (Math_PI - lit 2 * Math_PI * y / pow2 z)%js in
  (lit 180 / Math_PI
     * Math_atan (half * (Math_exp n - Math_exp (- n))))%js.

(** *** Slope classes *)

(** The loop [for (const range of SLOPE_RANGES) { if (slopeDeg <=
    range.max) { color = range.color; break; } }] over the entries left. *)
Fixpoint pickColor_from (ranges : list SlopeRange) (color0 : string)
    (slopeDeg : num) : string :=
  match ranges with
  | [] => color0
  | range :: rest =>
      if (slopeDeg <=? lit (max range))%js then color range
      else pickColor_from rest color0 slopeDeg
  end.

Definition fallbackColor : string := "#00000000".

Definition pickColor (slopeDeg : num) : string :=
  pickColor_from SLOPE_RANGES fallbackColor slopeDeg.

(** *** performTerrainAnalysis: tile coverage and the DEM mosaic *)

Record Bounds := { north : num; south : num; east : num; west : num }.

(** What a tile download yields when it succeeds: [rasters[0]],
    [image.getWidth()] and [image.getHeight()]. *)
Record Raster := { data : list num; width : Z; height : Z }.

Record Tile := {
  tile_x : Z; tile_y : Z; tile_z : Z;
  tile_data : list num; tile_width : Z; tile_height : Z }.

Record Mosaic := {
  mosaicWidth : Z; mosaicHeight : Z;
  mosaicData : list num;
  mosaicNorth : num; mosaicWest : num;
  mosaicSouth : num; mosaicEast : num;
  degPerPixelX : num; degPerPixelY : num }.

(** The loop counter starts at [lo] and is incremented while it is at most
    [hi]: no turn when the test fails at once (also on a NaN), the integers
    from [lo] to [hi] when both are integers, and no end otherwise (an
    infinite bound, or a counter that [++] no longer changes). *)
Definition forRange (lo hi : num) : loopRange :=
  if (lo <=? hi)%js then
    match toInteger lo, toInteger hi with
    | Some a, Some b => Range a b
    | _, _ => Endless
    end
  else Empty.

(** [tilesToFetch]: [x] in the outer loop, [y] in the inner one. *)
Definition tilesToFetch (xa xb ya yb : Z) : list (Z * Z) :=
  x ← seqZ xa (xb - xa + 1); y ← seqZ ya (yb - ya + 1); [(x, y)].

(** The downloads.  [fetch x y z] is what the tile server and the GeoTIFF
    decoder give for one tile, [None] when any step of the [try] block
    throws; [Promise.all] keeps the order of the requests and the
    [filter] drops the [null]s. *)
Definition validTiles (fetch : Z -> Z -> Z -> option Raster)
    (ts : list (Z * Z)) : list Tile :=
  omap (fun t =>
          r ← fetch t.1 t.2 TILE_ZOOM;
          Some {| tile_x := t.1; tile_y := t.2; tile_z := TILE_ZOOM;
                  tile_data := data r;
                  tile_width := width r; tile_height := height r |}) ts.

(** The body of [validTiles.forEach]. *)
Definition fillTile (xMin yMin mosaicWidth : Z) (mosaicData : list num)
    (tile : Tile) : list num :=
  let offsetX := (tile_x tile - xMin) * TILE_SIZE in
  let offsetY := (tile_y tile - yMin) * TILE_SIZE in
  foldl (fun md r =>
    foldl (fun md c =>
      let val := f32_get (tile_data tile) (r * TILE_SIZE + c) in
      f32_set md ((offsetY + r) * mosaicWidth + (offsetX + c)) val)
      md (seqZ 0 TILE_SIZE))
    mosaicData (seqZ 0 TILE_SIZE).

Definition noDataMessage : string := "Could not download any elevation data.".

(** The mosaic stitched from the tiles that came back, with its geospatial
    bounds (the tile grid bounds, not the bounds of the geometry).  Tile
    indices and pixel counts are integers and are computed as such. *)
Definition stitchMosaic (bounds : Bounds) (xa xb ya yb : Z)
    (valid : list Tile) : Mosaic :=
  let xMin := lng2tile (west bounds) TILE_ZOOM in
  let xMax := lng2tile (east bounds) TILE_ZOOM in
  let yMin := lat2tile (north bounds) TILE_ZOOM in
  let yMax := lat2tile (south bounds) TILE_ZOOM in
  let mosaicWidth := (xb - xa + 1) * TILE_SIZE in
  let mosaicHeight := (yb - ya + 1) * TILE_SIZE in
  let mosaicData := f32_new (mosaicWidth * mosaicHeight) in
  let mosaicData := foldl (fillTile xa ya mosaicWidth) mosaicData valid in
  let mosaicNorth := tile2lat yMin TILE_ZOOM in
  let mosaicWest := tile2lng xMin TILE_ZOOM in
  let mosaicSouth := tile2lat (yMax + lit 1)%js TILE_ZOOM in
  let mosaicEast := tile2lng (xMax + lit 1)%js TILE_ZOOM in
  {| mosaicWidth := mosaicWidth; mosaicHeight := mosaicHeight;
     mosaicData := mosaicData;
     mosaicNorth := mosaicNorth; mosaicWest := mosaicWest;
     mosaicSouth := mosaicSouth; mosaicEast := mosaicEast;
     degPerPixelX := ((mosaicEast - mosaicWest) / lit mosaicWidth)%js;
     degPerPixelY := ((mosaicNorth - mosaicSouth) / lit mosaicHeight)%js |}.

(** From the bounds to the mosaic: the tile range, the downloads, the
    failure when none came back, the stitching. *)
Definition assembleMosaic (fetch : Z -> Z -> Z -> option Raster)
    (bounds : Bounds) : outcome Mosaic :=
  let xMin := lng2tile (west bounds) TILE_ZOOM in
  let xMax := lng2tile (east bounds) TILE_ZOOM in
  let yMin := lat2tile (north bounds) TILE_ZOOM in
  let yMax := lat2tile (south bounds) TILE_ZOOM in
  match forRange xMin xMax with
  | Endless => Hangs
  | Empty => Throws noDataMessage
  | Range xa xb =>
    match forRange yMin yMax with
    | Endless => Hangs
    | Empty => Throws noDataMessage
    | Range ya yb =>
      let valid := validTiles fetch (tilesToFetch xa xb ya yb) in
      if decide (length valid = 0%nat) then Throws noDataMessage
      else Done (stitchMosaic bounds xa xb ya yb valid)
    end
  end.

(** *** performTerrainAnalysis: slope *)

Record SlopeRaster := { slopeData : list num; rgbaData : list Z }.

Definition centerLat (m : Mosaic) : num :=
  ((mosaicNorth m + mosaicSouth m) / lit 2)%js.
Definition metersPerLat : num := lit 111320.
Definition metersPerLng (m : Mosaic) : num :=
  (lit 111320 * Math_cos (centerLat m * Math_PI / lit 180))%js.
Definition cellSizeX (m : Mosaic) : num := (degPerPixelX m * metersPerLng m)%js.
Definition cellSizeY (m : Mosaic) : num := (degPerPixelY m * metersPerLat)%js.

Definition isNoData (zN zS zE zW : num) : bool :=
  (zN <? - lit 10000)%js || (zS <? - lit 10000)%js
  || (zE <? - lit 10000)%js || (zW <? - lit 10000)%js.

Definition slopeDegOf (zN zS zE zW cellSizeX cellSizeY : num) : num :=
  let dzdx := ((zE - zW) / (lit 2 * cellSizeX))%js in
  let dzdy := ((zN - zS) / (lit 2 * cellSizeY))%js in
  let riseRun := Math_sqrt (dzdx * dzdx + dzdy * dzdy)%js in
  let slopeRad := Math_atan riseRun in
  (slopeRad * (lit 180 / Math_PI))%js.

(** One turn of the inner loop, at column [x] of row [y].  Every colour the
    loop can pick is a hex colour, so [chroma] never throws here. *)
Definition slopePixel (mosaicWidth : Z) (mosaicData : list num)
    (cellSizeX cellSizeY : num) (out : SlopeRaster) (y x : Z) : SlopeRaster :=
  let idx := y * mosaicWidth + x in
  let zN := f32_get mosaicData ((y - 1) * mosaicWidth + x) in
  let zS := f32_get mosaicData ((y + 1) * mosaicWidth + x) in
  let zE := f32_get mosaicData (y * mosaicWidth + (x + 1)) in
  let zW := f32_get mosaicData (y * mosaicWidth + (x - 1)) in
  if isNoData zN zS zE zW then
    {| slopeData := f32_set (slopeData out) idx (lit 0);
       rgbaData := rgbaData out |}
  else
    let slopeDeg := slopeDegOf zN zS zE zW cellSizeX cellSizeY in
    let color := pickColor slopeDeg in
    let '(r, g, b) := default (0, 0, 0) (chroma_rgb color) in
    let alpha := 210 in
    {| slopeData := f32_set (slopeData out) idx slopeDeg;
       rgbaData :=
         u8_set (u8_set (u8_set (u8_set (rgbaData out)
           (idx * 4) r) (idx * 4 + 1) g) (idx * 4 + 2) b) (idx * 4 + 3) alpha |}.

Definition computeSlope (m : Mosaic) : SlopeRaster :=
  let n := Z.of_nat (length (mosaicData m)) in
  let slopeData := f32_new n in
  let rgbaData := u8_new (n * 4) in
  foldl (fun out y =>
    foldl (fun out x =>
      slopePixel (mosaicWidth m) (mosaicData m) (cellSizeX m) (cellSizeY m)
        out y x)
      out (seqZ 1 (mosaicWidth m - 2)))
    {| slopeData := slopeData; rgbaData := rgbaData |}
    (seqZ 1 (mosaicHeight m - 2)).

(** *** performTerrainAnalysis: clipping to the geometry

    GeoJSON as the parser hands it over: positions are [[lng, lat]]. *)

Definition Position : Type := (num * num)%type.

Inductive Geometry : Type :=
  | Point (coordinates : Position)
  | LineString (coordinates : list Position)
  | Polygon (coordinates : list (list Position))
  | MultiPolygon (coordinates : list (list (list Position))).

Record Feature := { geometry : option Geometry }.

(** The path of a 2D canvas context, as the HTML standard describes it: a
    list of subpaths, the last one current.  [moveTo] and [lineTo] ignore
    a coordinate that is infinite or NaN; [lineTo] on an empty path acts
    as [moveTo]; [closePath] marks the current subpath closed and starts
    a new one at its first point. *)
Record Subpath := { points : list (num * num); closed : bool }.

Definition isFinite (v : num) : bool := ((v - v) <=? lit 0)%js.

Fixpoint onLast {A} (f : A -> A) (l : list A) : list A :=
  match l with
  | [] => []
  | [a] => [f a]
  | a :: l' => a :: onLast f l'
  end.

Definition moveTo (path : list Subpath) (x y : num) : list Subpath :=
  if isFinite x && isFinite y
  then path ++ [{| points := [(x, y)]; closed := false |}]
  else path.

Definition lineTo (path : list Subpath) (x y : num) : list Subpath :=
  if isFinite x && isFinite y then
    match path with
    | [] => [{| points := [(x, y)]; closed := false |}]
    | _ => onLast (fun s => {| points := points s ++ [(x, y)];
                               closed := closed s |}) path
    end
  else path.

Definition closePath (path : list Subpath) : list Subpath :=
  match last path with
  | None => path
  | Some s =>
      onLast (fun s => {| points := points s; closed := true |}) path
        ++ [{| points := take 1 (points s); closed := false |}]
  end.

Definition lngToX (m : Mosaic) (lng : num) : num :=
  ((lng - mosaicWest m) / (mosaicEast m - mosaicWest m)
     * lit (mosaicWidth m))%js.

Definition latToY (m : Mosaic) (lat : num) : num :=
  ((mosaicNorth m - lat) / (mosaicNorth m - mosaicSouth m)
     * lit (mosaicHeight m))%js.

Definition drawRing (m : Mosaic) (path : list Subpath)
    (coords : list Position) : list Subpath :=
  match coords with
  | [] => path
  | c0 :: rest =>
      closePath
        (foldl (fun path c => lineTo path (lngToX m c.1) (latToY m c.2))
           (moveTo path (lngToX m c0.1) (latToY m c0.2)) rest)
  end.

(** The body of [geoJson.features.forEach]. *)
Definition drawFeature (m : Mosaic) (path : list Subpath)
    (feature : Feature) : list Subpath :=
  match geometry feature with
  | Some (Polygon rings) => foldl (drawRing m) path rings
  | Some (MultiPolygon polygons) =>
      foldl (fun path polygon => foldl (drawRing m) path polygon)
        path polygons
  | _ => path
  end.

(** [ctx.beginPath()] and the loop over the features. *)
Definition clipPath (m : Mosaic) (features : list Feature) : list Subpath :=
  foldl (drawFeature m) [] features.

(** [ctx.fill()] takes the fill rule "nonzero" when none is given: a point
    is inside the path when the windings of all subpaths around it, each
    subpath closed by a segment back to its start, add up to a non-zero
    number.  The winding of one subpath is counted over the edges that
    cross the horizontal line through the point. *)
Definition isLeft (p0 p1 p2 : num * num) : num :=
  ((p1.1 - p0.1) * (p2.2 - p0.2) - (p2.1 - p0.1) * (p1.2 - p0.2))%js.

Definition edgeWinding (p a b : num * num) : Z :=
  if (a.2 <=? p.2)%js then
    if (p.2 <? b.2)%js && (lit 0 <? isLeft a b p)%js then 1 else 0
  else
    if (b.2 <=? p.2)%js && (isLeft a b p <? lit 0)%js then -1 else 0.

Fixpoint edgesWinding (p start : num * num) (pts : list (num * num)) : Z :=
  match pts with
  | [] => 0
  | a :: rest =>
      match rest with
      | [] => edgeWinding p a start
      | b :: _ => edgeWinding p a b + edgesWinding p start rest
      end
  end.

Definition winding (p : num * num) (s : Subpath) : Z :=
  match points s with
  | [] => 0
  | start :: _ => edgesWinding p start (points s)
  end.

Definition pathWinding (p : num * num) (path : list Subpath) : Z :=
  foldr (fun s acc => winding p s + acc) 0 path.

Definition insidePath (path : list Subpath) (p : num * num) : bool :=
  negb (pathWinding p path =? 0).

(** The point a pixel is sampled at: its centre. *)
Definition pixelCentre (px py : Z) : num * num :=
  ((lit px + half)%js, (lit py + half)%js).

(** [putImageData], then the fill under "destination-in" with an opaque
    fill style: a pixel inside the path keeps its four bytes, a pixel
    outside becomes transparent black.  Pixels are sampled at their
    centres (no anti-aliasing of the edge pixels). *)
Definition clipToPath (path : list Subpath) (canvasWidth : Z)
    (rgbaData : list Z) : list Z :=
  imap (fun j v =>
          let i := Z.of_nat j / 4 in
          if insidePath path (pixelCentre (i mod canvasWidth) (i / canvasWidth))
          then v else 0) rgbaData.

(** *** performTerrainAnalysis *)

Record GeoData := {
  geo_width : Z; geo_height : Z;
  geo_north : num; geo_west : num;
  geo_pixelW : num; geo_pixelH : num;
  geo_canvas : list Z;
  geo_rawSlope : list num }.

Definition performTerrainAnalysis (fetch : Z -> Z -> Z -> option Raster)
    (bounds : Bounds) (geoJson : list Feature) : outcome GeoData :=
  match assembleMosaic fetch bounds with
  | Done m =>
      let slope := computeSlope m in
      let canvas :=
        clipToPath (clipPath m geoJson) (mosaicWidth m) (rgbaData slope) in
      Done {| geo_width := mosaicWidth m; geo_height := mosaicHeight m;
              geo_north := mosaicNorth m; geo_west := mosaicWest m;
              geo_pixelW := degPerPixelX m; geo_pixelH := degPerPixelY m;
              geo_canvas := canvas; geo_rawSlope := slopeData slope |}
  | Throws msg => Throws msg
  | Hangs => Hangs
  end.

End Pipeline.

Arguments Bounds num : clear implicits.
Arguments Raster num : clear implicits.
Arguments Tile num : clear implicits.
Arguments Mosaic num : clear implicits.
Arguments SlopeRaster num : clear implicits.
Arguments Position num : clear implicits.
Arguments Geometry num : clear implicits.
Arguments Feature num : clear implicits.
Arguments Subpath num : clear implicits.
Arguments GeoData num : clear implicits.

(** ** Numbers as the engine runs them: IEEE binary64 *)

Module B64.

(** The Number of an integer (round to nearest, ties to even; exact below
    2^53). *)
Definition of_Z (z : Z) : float :=
  SF2Prim (binary_normalize prec emax z 0 false).

(** [Math.floor]. *)
Definition floor (x : float) : float :=
  match Prim2SF x with
  | S754_finite s m e =>
      if (0 <=? e)%Z then x
      else of_Z (cond_Zopp s (Zpos m) / 2 ^ (- e))
  | _ => x
  end.

(** The integer a Number holds, below 2^53 in magnitude, where [++] still
    moves a counter. *)
Definition to_integer (x : float) : option Z :=
  match Prim2SF x with
  | S754_zero _ => Some 0
  | S754_finite s m e =>
      if (0 <=? e)%Z then
        let n := Zpos m * 2 ^ e in
        if (n <? 2 ^ 53)%Z then Some (cond_Zopp s n) else None
      else if (Zpos m mod 2 ^ (- e) =? 0)%Z
           then Some (cond_Zopp s (Zpos m / 2 ^ (- e)))
           else None
  | _ => None
  end.

(** The value a [Float32Array] keeps of a Number: the nearest binary32. *)
Definition to_float32 (x : float) : float :=
  match Prim2SF x with
  | S754_finite s m e => SF2Prim (binary_round 24 128 s m e)
  | _ => x
  end.

(** A Number that is neither infinite nor NaN. *)
Definition finite (x : float) : bool :=
  match Prim2SF x with
  | S754_zero _ | S754_finite _ _ _ => true
  | _ => false
  end.

(** A Number other than 0 and NaN: dividing 0 by it gives 0. *)
Definition divisor (x : float) : bool :=
  match Prim2SF x with
  | S754_infinity _ | S754_finite _ _ _ => true
  | _ => false
  end.

(** [Math.PI]: 3.141592653589793. *)
Definition PI : float := 0x1.921fb54442d18p+1%float.

(** [Math.pow(2, z)] at an integer [z]. *)
Definition exp2 (z : Z) : float := Z.ldexp 1%float z.

(** The functions of [Math] that ECMA-262 leaves implementation-approximated,
    with the two values of [Math.atan] it fixes. *)
Class Engine : Type := {
  js_atan : float -> float;
  js_cos : float -> float;
  js_tan : float -> float;
  js_log : float -> float;
  js_exp : float -> float;
  js_atan_zero : js_atan 0%float = 0%float;
  js_atan_nan : js_atan nan = nan
}.

#[global] Instance number {E : Engine} : JSNumber float := {|
  lit := of_Z;
  add := PrimFloat.add;
  sub := PrimFloat.sub;
  mul := PrimFloat.mul;
  div := PrimFloat.div;
  neg := PrimFloat.opp;
  ltb := PrimFloat.ltb;
  leb := PrimFloat.leb;
  NaN := nan;
  Math_PI := PI;
  Math_floor := floor;
  Math_sqrt := PrimFloat.sqrt;
  Math_atan := js_atan;
  Math_cos := js_cos;
  Math_tan := js_tan;
  Math_log := js_log;
  Math_exp := js_exp;
  pow2 := exp2;
  fround := to_float32;
  toInteger := to_integer
|}.

(** *** One engine

    Textbook series after argument reduction, a few units in the last
    place from the true values; it serves to run the pipeline on concrete
    inputs. *)
Module Series.
Local Open Scope float_scope.

Definition LN2 : float := 0x1.62e42fefa39efp-1.

(** sum of (-u)^i / (2i+1), the terms below [i] added to [acc] *)
Fixpoint atan_terms (u : float) (i : nat) (acc : float) : float :=
  match i with
  | O => acc
  | S j => atan_terms u j (1 / of_Z (2 * Z.of_nat j + 1) - u * acc)
  end.

Definition halve (t : float) : float := t / (1 + sqrt (1 + t * t)).

Definition atan_unit (a : float) : float :=
  let t := halve (halve a) in 4 * (t * atan_terms (t * t) 16 0).

Definition atan (x : float) : float :=
  if is_nan x then x
  else if is_zero x then x
  else
    let a := abs x in
    let r := if 1 <? a then PI / 2 - atan_unit (1 / a) else atan_unit a in
    if x <? 0 then - r else r.

Fixpoint exp_terms (r : float) (i : nat) (acc : float) : float :=
  match i with
  | O => acc
  | S j => exp_terms r j (1 + r * acc / of_Z (Z.of_nat (S j)))
  end.

Definition exp (x : float) : float :=
  if is_nan x then x
  else
    let k := floor (x / LN2 + 0.5) in
    match to_integer k with
    | Some kz => Z.ldexp (exp_terms (x - k * LN2) 22 1) kz
    | None => if x <? 0 then 0 else infinity
    end.

Fixpoint atanh_terms (u : float) (i : nat) (acc : float) : float :=
  match i with
  | O => acc
  | S j => atanh_terms u j (1 / of_Z (2 * Z.of_nat j + 1) + u * acc)
  end.

Definition log (x : float) : float :=
  if is_nan x then x
  else if x <? 0 then nan
  else if is_zero x then neg_infinity
  else if is_infinity x then x
  else
    let '(m, e) := Z.frexp x in
    let '(m, e) := if m <? 0.75 then (2 * m, (e - 1)%Z) else (m, e) in
    let s := (m - 1) / (m + 1) in
    of_Z e * LN2 + 2 * (s * atanh_terms (s * s) 30 0).

Fixpoint cos_terms (u : float) (i : nat) (acc : float) : float :=
  match i with
  | O => acc
  | S j =>
      cos_terms u j
        (1 - u * acc / of_Z ((2 * Z.of_nat j + 1) * (2 * Z.of_nat j + 2)))
  end.

Fixpoint sin_terms (u : float) (i : nat) (acc : float) : float :=
  match i with
  | O => acc
  | S j =>
      sin_terms u j
        (1 - u * acc / of_Z ((2 * Z.of_nat j + 2) * (2 * Z.of_nat j + 3)))
  end.

Definition reduce (x : float) : float :=
  x - floor (x / (2 * PI) + 0.5) * (2 * PI).

Definition cos (x : float) : float :=
  let r := reduce x in cos_terms (r * r) 20 1.

Definition sin (x : float) : float :=
  let r := reduce x in r * sin_terms (r * r) 20 1.

Definition tan (x : float) : float := sin x / cos x.

Definition engine : Engine := {|
  js_atan := atan;
  js_cos := cos;
  js_tan := tan;
  js_log := log;
  js_exp := exp;
  js_atan_zero := eq_refl;
  js_atan_nan := eq_refl
|}.
End Series.

End B64.

(** ** Numbers as the formulas read them: the reals

    No rounding, no infinities and no NaN: an [undefined] read counts as 0
    here, and the statements made at this instance read in range. *)

Module Exact.

Definition less (a b : R) : bool := if Rlt_dec a b then true else false.
Definition less_eq (a b : R) : bool := if Rle_dec a b then true else false.

Definition to_integer (x : R) : option Z :=
  if Req_dec_T (IZR (Zfloor x)) x then Some (Zfloor x) else None.

#[global] Instance number : JSNumber R := {|
  lit := IZR;
  add := Rplus;
  sub := Rminus;
  mul := Rmult;
  div := Rdiv;
  neg := Ropp;
  ltb := less;
  leb := less_eq;
  NaN := 0%R;
  Math_PI := Rtrigo1.PI;
  Math_floor := fun x => IZR (Zfloor x);
  Math_sqrt := R_sqrt.sqrt;
  Math_atan := Ratan.atan;
  Math_cos := Rtrigo_def.cos;
  Math_tan := Rtrigo1.tan;
  Math_log := Rpower.ln;
  Math_exp := Rtrigo_def.exp;
  pow2 := fun z => powerRZ 2 z;
  fround := fun x => x;
  toInteger := to_integer
|}.

End Exact.

(** ** handleDownload: the world file *)

Module WorldFile.
Local Open Scope string_scope.

(** The decimal digits of a natural number. *)
Fixpoint decimal_go (fuel : nat) (n : Z) (acc : string) : string :=
  match fuel with
  | O => acc
  | S fuel' =>
      let acc' := String (ascii_of_nat (48 + Z.to_nat (n mod 10))) acc in
      if (n <? 10)%Z then acc' else decimal_go fuel' (n / 10) acc'
  end.

Definition decimal (n : Z) : string :=
  decimal_go (S (Z.to_nat (Z.log2 n))) n "".

Fixpoint zeros (k : nat) : string :=
  match k with O => "" | S k' => String "0" (zeros k') end.

(** The digits of [n] with a point before the last [fd] of them, padded
    with zeros to at least one digit before the point. *)
Definition pointed (fd : nat) (n : Z) : string :=
  let m := decimal n in
  if decide (fd = 0%nat) then m
  else
    let m := zeros (S fd - String.length m) ++ m in
    let k := String.length m in
    substring 0 (k - fd) m ++ "." ++ substring (k - fd) fd m.

(** [Number.prototype.toFixed] (ECMA-262): the integer [n] for which
    [n / 10^fd - x] is closest to zero, the larger on a tie, written with
    [fd] digits after the point.  From 10^21 on the result is
    [ToString(x)], which is not modelled: [None]. *)
Definition toFixed (x : float) (fd : nat) : option string :=
  match Prim2SF x with
  | S754_nan => Some "NaN"
  | S754_infinity s => Some (if s then "-Infinity" else "Infinity")
  | S754_zero _ => Some (pointed fd 0)
  | S754_finite s m e =>
      let sign := if s then "-" else "" in
      let scale := (10 ^ Z.of_nat fd)%Z in
      if (0 <=? e)%Z then
        if (Zpos m * 2 ^ e <? 10 ^ 21)%Z
        then Some (sign ++ pointed fd (Zpos m * 2 ^ e * scale))
        else None
      else
        if (Zpos m <? 10 ^ 21 * 2 ^ (- e))%Z
        then Some (sign ++ pointed fd
                     ((2 * Zpos m * scale + 2 ^ (- e)) / 2 ^ (1 - e)))
        else None
  end.

Definition newline : string := String (ascii_of_nat 10) "".

(** [Array.prototype.join]. *)
Fixpoint join (sep : string) (parts : list string) : string :=
  match parts with
  | [] => ""
  | [s] => s
  | s :: rest => s ++ sep ++ join sep rest
  end.





End WorldFile.

(** The centre of the upper-left pixel, [ulX] and [ulY] of [handleDownload],
    over any Number instance; [WorldFile.tfwEntries] prints the two at
    binary64. *)
Section Origin.
Context {num : Type} `{JSNumber num}.



End Origin.

(** ** Tile requests *)

Section TileUrl.
Local Open Scope string_scope.

(** What a template literal prints for a Number that is an integer below
    10^21 in magnitude (a tile index, a count): its decimal digits, after a
    minus sign when it is negative. *)
Definition integerToString (n : Z) : string :=
  if (n <? 0)%Z then "-" ++ WorldFile.decimal (- n) else WorldFile.decimal n.

Definition AWS_TILE_URL (x y z : Z) : string :=
  "https://s3.amazonaws.com/elevation-tiles-prod/geotiff/"
    ++ integerToString z ++ "/" ++ integerToString x ++ "/"
    ++ integerToString y ++ ".tif".

End TileUrl.

(** ** The component: uploads, drawing tools and the KML of the drawn shapes

    [App] of [src/unnamed/part_000] ([src/index.tsx] has the upload alone,
    with the same handler but for two status texts).  The state is the
    state of the hooks the handlers below read and write, with the
    messages [alert] has shown; map layers, the side bar and the menu are
    presentation and left out.  A handler runs on the state the last one
    left, with the analysis it started settled: the refs [drawModeRef] and
    [tempPointsRef] hold the state they are copied from after every
    render. *)

Module Portal.
Local Open Scope string_scope.

(** ['idle'], ['processing'], ['done'], ['error']; ['polygon'], ['line'],
    ['point']. *)
Inductive Status : Type := idle | processing | done | error.
Inductive DrawMode : Type := polygon | line | point.

(** The double quote and the line break of a template literal. *)
Definition quote : string := String (ascii_of_nat 34) "".
Definition nl : string := WorldFile.newline.

(** [String.prototype.endsWith]. *)
Definition endsWith (s suffix : string) : bool :=
  let n := String.length s in
  let k := String.length suffix in
  (k <=? n)%nat && String.eqb (substring (n - k) k s) suffix.

(** An uploaded file: its name, what [file.text()] resolves to, and what
    JSZip makes of it, the entries in the order of [Object.keys(zip.files)]
    with what [async("string")] resolves to for each. *)
Record File := {
  name : string;
  text : outcome string;
  zip : outcome (list (string * outcome string)) }.

(** The filter of [handleFileSelect]: features with a geometry of type
    Polygon or MultiPolygon. *)
Definition polygonFeatures {num : Type} (features : list (Feature num))
    : list (Feature num) :=
  List.filter (fun f => match geometry f with
                        | Some (Polygon _) | Some (MultiPolygon _) => true
                        | _ => false
                        end) features.

(** What the component calls outside its own code: the tile server with the
    GeoTIFF decoder, the engine's printing of a Number and lower-casing of
    a string, the KML parser of the bundle ([toGeoJSON.kml ||
    toGeoJSON.default?.kml], applied to the parsed XML) and Leaflet:
    [L.geoJSON] of a feature or a list of features added to the map, which
    throws on a geometry Leaflet does not take and otherwise has bounds,
    valid or not. *)
Class Collaborators (num : Type) : Type := {
  fetchTile : Z -> Z -> Z -> option (Raster num);
  Number_toString : num -> string;
  String_toLowerCase : string -> string;
  toGeoJSON_kml : option (string -> outcome (option (list (Feature num))));
  L_geoJSON : list (Feature num) -> outcome (option (Bounds num))
}.

Section App.
Context {num : Type} `{JSNumber num} `{Collaborators num}.

(** *** generateKML *)

Definition kmlHeader : string :=
  "<?xml version=" ++ quote ++ "1.0" ++ quote ++ " encoding=" ++ quote
    ++ "UTF-8" ++ quote ++ "?>" ++ nl
    ++ "<kml xmlns=" ++ quote ++ "http://www.opengis.net/kml/2.2" ++ quote
    ++ ">" ++ nl
    ++ "  <Document>" ++ nl
    ++ "    <name>User Drawn Shapes</name>" ++ nl.

Definition kmlFooter : string := "  </Document>" ++ nl ++ "</kml>".

Definition placemarkHead (i : nat) : string :=
  "    <Placemark>" ++ nl
    ++ "      <name>Shape " ++ integerToString (Z.of_nat i + 1) ++ "</name>" ++ nl
    ++ "      <styleUrl>#polyStyle</styleUrl>" ++ nl.

Definition placemarkFoot : string := "    </Placemark>" ++ nl.

Definition polygonHead : string :=
  "      <Polygon>" ++ nl
    ++ "        <outerBoundaryIs>" ++ nl
    ++ "          <LinearRing>" ++ nl
    ++ "            <coordinates>" ++ nl.

Definition polygonFoot : string :=
  "            </coordinates>" ++ nl
    ++ "          </LinearRing>" ++ nl
    ++ "        </outerBoundaryIs>" ++ nl
    ++ "      </Polygon>" ++ nl.

(** [`${c[0]},${c[1]}`]. *)
Definition lngLat (c : Position num) : string :=
  Number_toString c.1 ++ "," ++ Number_toString c.2.

(** One turn of [features.forEach((f, i) => ...)] on the text so far.
    [None]: a TypeError, for a feature without geometry (the read of
    [f.geometry.type]) and for a Polygon without rings ([forEach] of the
    [undefined] that [coordinates[0]] is).  No branch takes a
    MultiPolygon. *)
Definition placemark (kml : string) (i : nat) (f : Feature num)
    : option string :=
  let kml := kml ++ placemarkHead i in
  g ← geometry f;
  kml ← match g with
        | Point c =>
            Some (kml ++ "      <Point><coordinates>" ++ Number_toString c.1
                    ++ "," ++ Number_toString c.2
                    ++ "</coordinates></Point>" ++ nl)
        | LineString cs =>
            let coords := WorldFile.join " " (lngLat <$> cs) in
            Some (kml ++ "      <LineString><coordinates>" ++ coords
                    ++ "</coordinates></LineString>" ++ nl)
        | Polygon rings =>
            match rings with
            | [] => None
            | ring :: _ =>
                let kml := kml ++ polygonHead in
                let kml :=
                  foldl (fun kml c => kml ++ "              " ++ lngLat c ++ nl)
                    kml ring in
                Some (kml ++ polygonFoot)
            end
        | MultiPolygon _ => Some kml
        end;
  Some (kml ++ placemarkFoot).

Fixpoint placemarks (kml : string) (i : nat) (features : list (Feature num))
    : option string :=
  match features with
  | [] => Some kml
  | f :: rest => kml ← placemark kml i f; placemarks kml (S i) rest
  end.

Definition generateKML (features : list (Feature num)) : option string :=
  kml ← placemarks kmlHeader 0 features;
  Some (kml ++ kmlFooter).

(** *** The state *)

(** A position on the map as Leaflet hands it to a listener. *)
Record LatLng := { lat : num; lng : num }.

Record App := {
  status : Status;
  statusMessage : string;
  geoData : option (GeoData num);
  drawMode : option DrawMode;
  tempPoints : list LatLng;
  drawnFeatures : list (Feature num);
  alerts : list string }.

Definition initial : App :=
  {| status := idle; statusMessage := ""; geoData := None;
     drawMode := None; tempPoints := []; drawnFeatures := [];
     alerts := [] |}.

Definition setStatus (v : Status) (app : App) : App :=
  {| status := v; statusMessage := statusMessage app;
     geoData := geoData app; drawMode := drawMode app;
     tempPoints := tempPoints app; drawnFeatures := drawnFeatures app;
     alerts := alerts app |}.

Definition setStatusMessage (v : string) (app : App) : App :=
  {| status := status app; statusMessage := v;
     geoData := geoData app; drawMode := drawMode app;
     tempPoints := tempPoints app; drawnFeatures := drawnFeatures app;
     alerts := alerts app |}.

Definition setGeoData (v : option (GeoData num)) (app : App) : App :=
  {| status := status app; statusMessage := statusMessage app;
     geoData := v; drawMode := drawMode app;
     tempPoints := tempPoints app; drawnFeatures := drawnFeatures app;
     alerts := alerts app |}.

Definition setDrawMode (v : option DrawMode) (app : App) : App :=
  {| status := status app; statusMessage := statusMessage app;
     geoData := geoData app; drawMode := v;
     tempPoints := tempPoints app; drawnFeatures := drawnFeatures app;
     alerts := alerts app |}.

Definition setTempPoints (v : list LatLng) (app : App) : App :=
  {| status := status app; statusMessage := statusMessage app;
     geoData := geoData app; drawMode := drawMode app;
     tempPoints := v; drawnFeatures := drawnFeatures app;
     alerts := alerts app |}.

Definition setDrawnFeatures (v : list (Feature num)) (app : App) : App :=
  {| status := status app; statusMessage := statusMessage app;
     geoData := geoData app; drawMode := drawMode app;
     tempPoints := tempPoints app; drawnFeatures := v;
     alerts := alerts app |}.

Definition alert (msg : string) (app : App) : App :=
  {| status := status app; statusMessage := statusMessage app;
     geoData := geoData app; drawMode := drawMode app;
     tempPoints := tempPoints app; drawnFeatures := drawnFeatures app;
     alerts := (alerts app ++ [msg])%list |}.

(** How a handler, or an asynchronous function, ends, and the state it
    leaves: it returns (its promise is fulfilled), an exception leaves it
    (its promise is rejected), or it runs a loop that has no end. *)
Inductive settled : Type :=
  | Ends (app : App)
  | Fails (msg : string) (app : App)
  | Freezes.

Definition andThen (r : settled) (k : App -> settled) : settled :=
  match r with
  | Ends app => k app
  | Fails msg app => Fails msg app
  | Freezes => Freezes
  end.

(** A call, or an [await], of a collaborator in state [app]. *)
Definition await {A} (o : outcome A) (app : App) (k : A -> settled) : settled :=
  match o with
  | Done a => k a
  | Throws msg => Fails msg app
  | Hangs => Freezes
  end.

(** *** performTerrainAnalysis, with the status it shows *)

(** [tilesToFetch.length]; [None] when the loops have no end. *)
Definition tileCount (bounds : Bounds num) : option nat :=
  let xMin := lng2tile (west bounds) TILE_ZOOM in
  let xMax := lng2tile (east bounds) TILE_ZOOM in
  let yMin := lat2tile (north bounds) TILE_ZOOM in
  let yMax := lat2tile (south bounds) TILE_ZOOM in
  match forRange xMin xMax with
  | Endless => None
  | Empty => Some 0%nat
  | Range xa xb =>
    match forRange yMin yMax with
    | Endless => None
    | Empty => Some 0%nat
    | Range ya yb => Some (length (tilesToFetch xa xb ya yb))
    end
  end.

(** The status texts of [performTerrainAnalysis] around the raster pipeline
    ([performTerrainAnalysis] above), which throws before the mosaic is
    stitched or not at all. *)
Definition performTerrainAnalysis_shown (bounds : Bounds num)
    (geoJson : list (Feature num)) (app : App) : settled :=
  let app := setStatusMessage "Calculating tile coverage..." app in
  match tileCount bounds with
  | None => Freezes
  | Some n =>
    let app :=
      setStatusMessage
        ("Fetching " ++ integerToString (Z.of_nat n) ++ " DEM tiles from AWS...")
        app in
    match performTerrainAnalysis fetchTile bounds geoJson with
    | Hangs => Freezes
    | Throws msg => Fails msg app
    | Done result =>
        let app := setStatusMessage "Stitching DEM mosaic..." app in
        let app := setStatusMessage "Calculating Slope..." app in
        let app := setStatusMessage "Clipping to Geometry..." app in
        let app := setGeoData (Some result) app in
        let app := setStatus done app in
        let app := setStatusMessage "Analysis Complete." app in
        Ends app
    end
  end.

(** *** Uploads *)

Definition parseKmlFile (file : File) : outcome string :=
  if endsWith (String_toLowerCase (name file)) ".kmz" then
    match zip file with
    | Done entries =>
        match List.find (fun entry => endsWith entry.1 ".kml") entries with
        | None => Throws "Invalid KMZ: No KML file found inside."
        | Some kmlFile => kmlFile.2
        end
    | Throws msg => Throws msg
    | Hangs => Hangs
    end
  else text file.

(** [None]: [null], or an object without [features]. *)
Definition parseKmlTextToGeoJson (text : string)
    : outcome (option (list (Feature num))) :=
  match toGeoJSON_kml with
  | None => Throws "KML Parser not initialized correctly."
  | Some kmlParser => kmlParser text
  end.

(** [file] is [e.target.files?.[0]].  [map.fitBounds] throws on bounds that
    are not valid; the [catch] takes whatever the [try] block throws. *)
Definition handleFileSelect (file : option File) (app : App) : settled :=
  match file with
  | None => Ends app
  | Some file =>
    let app := setDrawnFeatures [] app in
    let app := setStatus processing app in
    let app := setStatusMessage "Parsing KML/KMZ..." app in
    let app := setGeoData None app in
    let attempt :=
      await (parseKmlFile file) app (fun kmlText =>
      await (parseKmlTextToGeoJson kmlText) app (fun rawGeoJson =>
      match rawGeoJson with
      | None => Fails "Invalid KML data structure." app
      | Some features =>
          let polygonFeatures := polygonFeatures features in
          if decide (length polygonFeatures = 0%nat)
          then Fails "No Polygon layer detected" app
          else
            await (L_geoJSON polygonFeatures) app (fun bounds =>
            match bounds with
            | None => Fails "Bounds are not valid." app
            | Some bounds =>
                performTerrainAnalysis_shown bounds polygonFeatures app
            end)
      end)) in
    match attempt with
    | Ends app => Ends app
    | Fails msg app =>
        let app := setStatus error app in
        Ends (setStatusMessage ("Error: " ++ msg) app)
    | Freezes => Freezes
    end
  end.

(** *** The drawing tools *)

Definition addDrawnFeature (feature : Feature num) (app : App) : settled :=
  let app := setDrawnFeatures (drawnFeatures app ++ [feature])%list app in
  await (L_geoJSON [feature]) app (fun _ => Ends app).

(** The promise of the analysis is dropped: when it is rejected the state
    stays as the analysis left it.  On bounds that are not valid the
    analysis is rejected at its first read of them. *)
Definition triggerAnalysisFromDraw (feature : Feature num) (app : App)
    : settled :=
  let app := setGeoData None app in
  let geoJson := [feature] in
  await (L_geoJSON geoJson) app (fun bounds =>
    let app := setStatus processing app in
    match bounds with
    | None => Ends (setStatusMessage "Calculating tile coverage..." app)
    | Some bounds =>
        match performTerrainAnalysis_shown bounds geoJson app with
        | Ends app => Ends app
        | Fails _ app => Ends app
        | Freezes => Freezes
        end
    end).

(** [setDrawMode(null); setTempPoints([]);] *)
Definition leaveDrawing (app : App) : App :=
  setTempPoints [] (setDrawMode None app).

Definition finishDrawing (app : App) : settled :=
  let mode := drawMode app in
  let points := tempPoints app in
  match mode, points with
  | None, _ | _, [] => Ends (leaveDrawing app)
  | Some mode, first :: _ =>
    let finalPoints := points in
    match mode with
    | polygon =>
        if decide (length finalPoints < 3)%nat then
          Ends (leaveDrawing (alert "Polygon needs at least 3 points." app))
        else
          let finalPoints := (finalPoints ++ [first])%list in
          let coords := (fun p => (lng p, lat p)) <$> finalPoints in
          let newFeature := {| geometry := Some (Polygon [coords]) |} in
          andThen (addDrawnFeature newFeature app) (fun app =>
          andThen (triggerAnalysisFromDraw newFeature app) (fun app =>
          Ends (leaveDrawing app)))
    | line =>
        if decide (length finalPoints < 2)%nat then Ends (leaveDrawing app)
        else
          let coords := (fun p => (lng p, lat p)) <$> finalPoints in
          let newFeature := {| geometry := Some (LineString coords) |} in
          andThen (addDrawnFeature newFeature app) (fun app =>
          Ends (leaveDrawing app))
    | point => Ends (leaveDrawing app)
    end
  end.

(** The listener of the map's click. *)
Definition onClick (latlng : LatLng) (app : App) : settled :=
  match drawMode app with
  | None => Ends app
  | Some point =>
      let newFeature :=
        {| geometry := Some (Point (lng latlng, lat latlng)) |} in
      andThen (addDrawnFeature newFeature app) (fun app =>
      Ends (setDrawMode None app))
  | Some _ => Ends (setTempPoints (tempPoints app ++ [latlng])%list app)
  end.

(** What the user does: a click on the map, a right click or a double
    click (both call [finishDrawing]), a button of the drawing menu, the
    Cancel button of the hint, the choice of a file. *)
Inductive Event : Type :=
  | click (latlng : LatLng)
  | contextmenu
  | dblclick
  | tool (mode : DrawMode)
  | cancel
  | change (file : option File).

Definition handle (e : Event) (app : App) : settled :=
  match e with
  | click latlng => onClick latlng app
  | contextmenu => finishDrawing app
  | dblclick => finishDrawing app
  | tool mode => Ends (setDrawMode (Some mode) app)
  | cancel => Ends (leaveDrawing app)
  | change file => handleFileSelect file app
  end.

(** The states the component goes through: after an exception has left a
    handler the component goes on in the state the handler left. *)
Inductive reachable : App -> Prop :=
  | reachable_initial : reachable initial
  | reachable_ends e app app' :
      reachable app -> handle e app = Ends app' -> reachable app'
  | reachable_fails e app msg app' :
      reachable app -> handle e app = Fails msg app' -> reachable app'.

End App.

Arguments LatLng num : clear implicits.
Arguments App num : clear implicits.
Arguments settled num : clear implicits.
Arguments Event num : clear implicits.

End Portal.

(** ** Notions the statements are written with *)

(** [chroma] reads the colour: three bytes. *)
Definition isRgb (c : string) : bool :=
  match chroma_rgb c with
  | Some (r, g, b) =>
      (0 <=? r) && (r <? 256) && (0 <=? g) && (g <? 256) && (0 <=? b) && (b <? 256)
  | None => false
  end.

(** A nested loop visits the pairs of its two ranges, outer index first. *)
Definition pairs {A B} (ys : list A) (xs : list B) : list (A * B) :=
  y ← ys; x ← xs; [(y, x)].

(** The pixels the two loops of the slope computation visit. *)
Definition interior (mosaicWidth mosaicHeight : Z) : list (Z * Z) :=
  pairs (seqZ 1 (mosaicHeight - 2)) (seqZ 1 (mosaicWidth - 2)).

(** A run of stores into a typed array: index and value, in order. *)
Definition storeRun {A} (a : list A) (ws : list (Z * A)) : list A :=
  foldl (fun a w => ta_set a w.1 w.2) a ws.

Section Extent.
Context {num : Type} `{JSNumber num}.

(** The stores [fillTile] performs for one tile, in order. *)
Definition tileWrites (xa ya W : Z) (tile : Tile num) : list (Z * num) :=
  (fun p : Z * Z =>
     (((tile_y tile - ya) * TILE_SIZE + p.1) * W
        + ((tile_x tile - xa) * TILE_SIZE + p.2),
      fround (f32_get (tile_data tile) (p.1 * TILE_SIZE + p.2))))
  <$> pairs (seqZ 0 TILE_SIZE) (seqZ 0 TILE_SIZE).


(** The rings the clipping loop draws: every ring of every Polygon and of
    every polygon of a MultiPolygon, in order. *)
Definition ringsOf (feature : Feature num) : list (list (Position num)) :=
  match geometry feature with
  | Some (Polygon rings) => rings
  | Some (MultiPolygon polygons) => concat polygons
  | _ => []
  end.

Definition allRings (features : list (Feature num)) : list (list (Position num)) :=
  features ≫= ringsOf.

(** The winding around a point of one ring drawn on its own. *)
Definition ringWinding (m : Mosaic num) (p : num * num)
    (ring : list (Position num)) : Z :=
  pathWinding p (drawRing m [] ring).

(** The first vertex of a ring lands on finite canvas coordinates. *)
Definition startsFinite (m : Mosaic num) (ring : list (Position num)) : Prop :=
  match ring with
  | [] => True
  | c0 :: _ => isFinite (lngToX m c0.1) && isFinite (latToY m c0.2) = true
  end.


End Extent.

Section Stencil.
Context {num : Type} `{JSNumber num}.
Variable m : Mosaic num.

(** The buffer of a mosaic has one sample per pixel. *)
Definition wellFormed : Prop :=
  0 <= mosaicWidth m /\ 0 <= mosaicHeight m
  /\ Z.of_nat (length (mosaicData m)) = mosaicWidth m * mosaicHeight m.

(** One turn of the slope loops on the mosaic, and a run of turns. *)
Definition slopeStep (out : SlopeRaster num) (y x : Z) : SlopeRaster num :=
  slopePixel (mosaicWidth m) (mosaicData m) (cellSizeX m) (cellSizeY m) out y x.

Definition slopeRun (out : SlopeRaster num) (ps : list (Z * Z)) : SlopeRaster num :=
  foldl (fun out p => slopeStep out p.1 p.2) out ps.

(** The four elevation samples the stencil reads at a pixel. *)
Definition zNorth (y x : Z) : num :=
  f32_get (mosaicData m) ((y - 1) * mosaicWidth m + x).
Definition zSouth (y x : Z) : num :=
  f32_get (mosaicData m) ((y + 1) * mosaicWidth m + x).
Definition zEast (y x : Z) : num :=
  f32_get (mosaicData m) (y * mosaicWidth m + (x + 1)).
Definition zWest (y x : Z) : num :=
  f32_get (mosaicData m) (y * mosaicWidth m + (x - 1)).

Definition noDataAt (y x : Z) : bool :=
  isNoData (zNorth y x) (zSouth y x) (zEast y x) (zWest y x).

Definition slopeAt (y x : Z) : num :=
  slopeDegOf (zNorth y x) (zSouth y x) (zEast y x) (zWest y x)
    (cellSizeX m) (cellSizeY m).

(** [(y, x)] is the only pixel of [ps] with its index. *)
Definition ownsIndex (ps : list (Z * Z)) (y x : Z) : Prop :=
  forall y' x', (y', x') ∈ ps ->
    y' * mosaicWidth m + x' = y * mosaicWidth m + x -> (y', x') = (y, x).

End Stencil.

(** ** Notions for the component and the texts it writes *)


(** Every character of a string passes a test. *)
Fixpoint allChars (test : ascii -> bool) (s : string) : bool :=
  match s with
  | EmptyString => true
  | String c rest => test c && allChars test rest
  end.

Definition isDigit (c : ascii) : bool :=
  (48 <=? Z.of_nat (nat_of_ascii c)) && (Z.of_nat (nat_of_ascii c) <=? 57).

Definition isSignOrDigit (c : ascii) : bool := isDigit c || Ascii.eqb c "-".

Definition otherThan (sep : ascii) (c : ascii) : bool := negb (Ascii.eqb c sep).

(** The number a string of decimal digits writes, and the integer a string
    of digits after an optional minus sign writes. *)
Fixpoint readDecimal (s : string) : Z :=
  match s with
  | EmptyString => 0
  | String c rest =>
      (Z.of_nat (nat_of_ascii c) - 48) * 10 ^ Z.of_nat (String.length rest)
      + readDecimal rest
  end.

Definition readInteger (s : string) : Z :=
  match s with
  | String "-" rest => - readDecimal rest
  | _ => readDecimal s
  end.

Section Shapes.
Context {num : Type}.

(** A feature [generateKML] can write: it has a geometry, and a Polygon
    has a ring. *)
Definition exportable (f : Feature num) : bool :=
  match geometry f with
  | None | Some (Polygon []) => false
  | _ => true
  end.

(** What [generateKML] reads of a feature: of a Polygon its first ring, of
    a MultiPolygon nothing. *)
Definition outerRingOnly (f : Feature num) : Feature num :=
  match geometry f with
  | Some (Polygon (ring :: _)) => {| geometry := Some (Polygon [ring]) |}
  | Some (MultiPolygon _) => {| geometry := Some (MultiPolygon []) |}
  | _ => f
  end.

(** A shape as the drawing tools make it: a point, a line of two positions
    or more, or a polygon of one ring that has four positions or more and
    ends where it starts. *)
Definition wellDrawn (f : Feature num) : Prop :=
  match geometry f with
  | Some (Point _) => True
  | Some (LineString coords) => (2 <= length coords)%nat
  | Some (Polygon [ring]) => (4 <= length ring)%nat /\ head ring = last ring
  | _ => False
  end.

(** The position [[lng, lat]] of a point of the map, and the ring the
    polygon tool closes over the points clicked. *)
Definition position (p : Portal.LatLng num) : Position num :=
  (Portal.lng p, Portal.lat p).

Definition closedRing (points : list (Portal.LatLng num)) : list (Position num) :=
  position <$> points ++ take 1 points.

(** The part of the state an analysis does not touch. *)
Definition drawing (app : Portal.App num)
    : option Portal.DrawMode * list (Portal.LatLng num)
      * list (Feature num) * list string :=
  (Portal.drawMode app, Portal.tempPoints app, Portal.drawnFeatures app,
   Portal.alerts app).

(** The state in which the download button is shown has data to
    download. *)
Definition ready (app : Portal.App num) : Prop :=
  Portal.status app = Portal.done -> is_Some (Portal.geoData app).

End Shapes.

(** The text shown while the tiles are fetched. *)
Definition fetching (n : nat) : string :=
  ("Fetching " ++ integerToString (Z.of_nat n) ++ " DEM tiles from AWS...")%string.

(** [n] is the integer nearest to the magnitude of [x] times [10^fd] (of
    the two nearest, either). *)
Definition nearestScaled (x : float) (fd : nat) (n : Z) : Prop :=
  match Prim2SF x with
  | S754_zero _ => n = 0
  | S754_finite _ m e =>
      if (0 <=? e)%Z then n = Zpos m * 2 ^ e * 10 ^ Z.of_nat fd
      else 2 * Z.abs (n * 2 ^ (- e) - Zpos m * 10 ^ Z.of_nat fd) <= 2 ^ (- e)
  | _ => False
  end.

(** ** Sample inputs *)

Module Samples.
Local Open Scope float_scope.

(** A mosaic of three by three pixels a quarter of a degree wide, north of
    the equator, with the given samples. *)
Definition mosaic3 (samples : list float) : Mosaic float :=
  {| mosaicWidth := 3; mosaicHeight := 3;
     mosaicData := samples;
     mosaicNorth := 13; mosaicWest := 77;
     mosaicSouth := 12.75; mosaicEast := 77.25;
     degPerPixelX := (77.25 - 77) / 3;
     degPerPixelY := (13 - 12.75) / 3 |}.

(** Flat terrain at 100 m. *)
Definition flat : Mosaic float := mosaic3 (replicate 9 100).

(** Flat terrain with a missing sample north of the centre pixel. *)
Definition pit : Mosaic float := mosaic3 [0; -32768; 0; 0; 0; 0; 0; 0; 0].

(** A ramp rising 10 m per pixel to the east. *)
Definition ramp : Mosaic float := mosaic3 [0; 10; 20; 0; 10; 20; 0; 10; 20].

(** The Number 2.0001 (the quotient of two integers is correctly rounded,
    as is the literal). *)
Definition slope_2_0001 : float := 20001 / 10000.



(** The Numbers 0.001, 0.002, 10.0005 and 49.9995. *)
Definition deg_0_001 : float := 1 / 1000.

(** A box around 13 N, 77.5 E: tile columns 2929 to 2931 and tile rows 1898
    to 1900 at zoom 12. *)
Definition box : Bounds float :=
  {| north := 13; south := 12.875; east := 77.625; west := 77.5 |}.

(** A tile server that has one tile of the box, of no samples, and fails on
    every other tile; and one that fails on all. *)
Definition oneTile (x y z : Z) : option (Raster float) :=
  if ((x =? 2929) && (y =? 1898))%Z
  then Some {| data := []; width := 512; height := 512 |}
  else None.

Definition noTile (x y z : Z) : option (Raster float) := None.






End Samples.

(** ** Further sample inputs *)

Module Cases.




(** Three points clicked around 13 N, 77.5 E, and the state of the
    component with a tool chosen and points clicked. *)
Definition southWest : Portal.LatLng float :=
  {| Portal.lat := 12.875%float; Portal.lng := 77.5%float |}.
Definition southEast : Portal.LatLng float :=
  {| Portal.lat := 12.875%float; Portal.lng := 77.625%float |}.
Definition northWest : Portal.LatLng float :=
  {| Portal.lat := 13%float; Portal.lng := 77.5%float |}.

Definition corners : list (Portal.LatLng float) :=
  [southWest; southEast; northWest].

Definition sketch (mode : Portal.DrawMode) (points : list (Portal.LatLng float))
    : Portal.App float :=
  {| Portal.status := Portal.idle; Portal.statusMessage := "";
     Portal.geoData := None;
     Portal.drawMode := Some mode; Portal.tempPoints := points;
     Portal.drawnFeatures := []; Portal.alerts := [] |}.

(** The polygon the polygon tool makes of the three corners. *)
Definition plot : Feature float :=
  {| geometry := Some (Polygon [closedRing corners]) |}.

(** Collaborators to run the component with: Leaflet takes every geometry
    and gives it the box [Samples.box], the KML parser finds the plot in
    every text, a Number is printed with six decimals, and the tile server
    has one tile of the box ([served]) or none ([unserved]). *)
Definition served : Portal.Collaborators float :=
  {| Portal.fetchTile := Samples.oneTile;
     Portal.Number_toString := fun x => default "NaN"%string (WorldFile.toFixed x 6);
     Portal.String_toLowerCase := fun s => s;
     Portal.toGeoJSON_kml := Some (fun _ => Done (Some [plot]));
     Portal.L_geoJSON := fun _ => Done (Some Samples.box) |}.

Definition unserved : Portal.Collaborators float :=
  {| Portal.fetchTile := Samples.noTile;
     Portal.Number_toString := fun x => default "NaN"%string (WorldFile.toFixed x 6);
     Portal.String_toLowerCase := fun s => s;
     Portal.toGeoJSON_kml := Some (fun _ => Done (Some [plot]));
     Portal.L_geoJSON := fun _ => Done (Some Samples.box) |}.

(** An uploaded KML file. *)
Definition upload : Portal.File :=
  {| Portal.name := "area.kml";
     Portal.text := Done "<kml></kml>"%string;
     Portal.zip := Throws "Can't find end of central directory" |}.

End Cases.

(** * Properties *)

(** ** Typed arrays *)

Section TypedArrayFacts.
Context {A : Type}.
Implicit Types (a : list A) (i j : Z) (v : A).

Lemma ta_set_length a i v : length (ta_set a i v) = length a.
Proof. unfold ta_set. case_decide; [apply length_insert | done]. Qed.

Lemma ta_get_set_eq a i v :
  0 <= i < Z.of_nat (length a) -> ta_get (ta_set a i v) i = Some v.
Proof.
  intros [Hlo Hhi]. unfold ta_get, ta_set.
  rewrite !decide_True by done. apply list_lookup_insert_eq. lia.
Qed.

Lemma ta_get_set_ne a i j v : i <> j -> ta_get (ta_set a i v) j = ta_get a j.
Proof.
  intros Hne. unfold ta_get, ta_set.
  destruct (decide (0 <= j)); [|done].
  destruct (decide (0 <= i)); [|done].
  apply list_lookup_insert_ne. lia.
Qed.

Lemma ta_get_replicate n v i :
  0 <= i < n -> ta_get (replicate (Z.to_nat n) v) i = Some v.
Proof.
  intros [Hlo Hhi]. unfold ta_get. rewrite decide_True by done.
  apply lookup_replicate_2. lia.
Qed.

Lemma ta_get_Some_range a i v : ta_get a i = Some v -> 0 <= i < Z.of_nat (length a).
Proof.
  unfold ta_get. case_decide; [|done].
  intros Hl%lookup_lt_Some. lia.
Qed.

Lemma ta_get_is_Some a i : 0 <= i < Z.of_nat (length a) -> is_Some (ta_get a i).
Proof.
  intros [Hlo Hhi]. unfold ta_get. rewrite decide_True by done.
  apply lookup_lt_is_Some. lia.
Qed.

End TypedArrayFacts.

Lemma foldl_nested {S A B} (f : S -> A -> B -> S) (ys : list A) (xs : list B) (s : S) :
  foldl (fun s y => foldl (fun s x => f s y x) s xs) s ys
  = foldl (fun s p => f s p.1 p.2) s (pairs ys xs).
Proof.
  revert s. induction ys as [|y ys IH]; intros s; [done|].
  unfold pairs in *. cbn [foldl mbind list_bind]. rewrite foldl_app, <- IH. f_equal.
  clear IH. revert s. induction xs as [|x xs IHx]; intros s; [done|].
  cbn. apply IHx.
Qed.

Lemma elem_of_pairs {A B} (ys : list A) (xs : list B) (y : A) (x : B) :
  (y, x) ∈ pairs ys xs <-> y ∈ ys /\ x ∈ xs.
Proof.
  unfold pairs. rewrite list_elem_of_bind. split.
  - intros (y' & Hin & Hy). apply list_elem_of_bind in Hin as (x' & Hin & Hx).
    apply list_elem_of_singleton in Hin. by simplify_eq.
  - intros [Hy Hx]. exists y. split; [|done].
    apply list_elem_of_bind. exists x. split; [|done]. by apply list_elem_of_singleton.
Qed.

(** ** The slope loop *)

Lemma elem_of_interior W Ht y x :
  (y, x) ∈ interior W Ht <-> (1 <= y < Ht - 1) /\ (1 <= x < W - 1).
Proof. unfold interior. rewrite elem_of_pairs, !elem_of_seqZ. lia. Qed.

(** Row-major indices of two pixels of one raster coincide only for the
    same pixel. *)
Lemma pixel_index_inj (W y x y' x' : Z) :
  0 <= x < W -> 0 <= x' < W -> y * W + x = y' * W + x' -> y = y' /\ x = x'.
Proof.
  intros Hx Hx' Heq.
  apply (Z.div_mod_unique W); [by left|by left|]. lia.
Qed.

Section SlopeLoop.
Context {num : Type} `{JSNumber num}.
Variable m : Mosaic num.
Local Abbreviation W := (mosaicWidth m).

Lemma slopePixel_nodata out y x :
  noDataAt m y x = true ->
  slopeStep m out y x
  = {| slopeData := f32_set (slopeData out) (y * W + x) (lit 0);
       rgbaData := rgbaData out |}.
Proof. unfold noDataAt, zNorth, zSouth, zEast, zWest, slopeStep, slopePixel. by intros ->. Qed.

Lemma slopePixel_data out y x r g b :
  noDataAt m y x = false ->
  chroma_rgb (pickColor (slopeAt m y x)) = Some (r, g, b) ->
  slopeStep m out y x
  = {| slopeData := f32_set (slopeData out) (y * W + x) (slopeAt m y x);
       rgbaData :=
         u8_set (u8_set (u8_set (u8_set (rgbaData out)
           ((y * W + x) * 4) r) ((y * W + x) * 4 + 1) g)
           ((y * W + x) * 4 + 2) b) ((y * W + x) * 4 + 3) 210 |}.
Proof.
  unfold noDataAt, slopeAt, zNorth, zSouth, zEast, zWest, slopeStep, slopePixel.
  intros -> Hc. cbv zeta. by rewrite Hc.
Qed.

Lemma slopePixel_slope_length out y x :
  length (slopeData (slopeStep m out y x)) = length (slopeData out).
Proof.
  unfold slopeStep, slopePixel. cbv zeta.
  destruct (isNoData _ _ _ _); [|destruct (default _ _) as [[??]?]];
    cbn; apply ta_set_length.
Qed.

Lemma slopePixel_rgba_length out y x :
  length (rgbaData (slopeStep m out y x)) = length (rgbaData out).
Proof.
  unfold slopeStep, slopePixel. cbv zeta.
  destruct (isNoData _ _ _ _); [done|destruct (default _ _) as [[??]?]].
  cbn. unfold u8_set. by rewrite !ta_set_length.
Qed.

Lemma slopePixel_slope_other out y x j :
  j <> y * W + x ->
  ta_get (slopeData (slopeStep m out y x)) j
  = ta_get (slopeData out) j.
Proof.
  intros Hj. unfold slopeStep, slopePixel. cbv zeta.
  destruct (isNoData _ _ _ _); [|destruct (default _ _) as [[??]?]];
    cbn; apply ta_get_set_ne; congruence.
Qed.

Lemma slopePixel_rgba_other out y x j :
  ~ ((y * W + x) * 4 <= j < (y * W + x) * 4 + 4) ->
  ta_get (rgbaData (slopeStep m out y x)) j
  = ta_get (rgbaData out) j.
Proof.
  intros Hj. unfold slopeStep, slopePixel. cbv zeta.
  destruct (isNoData _ _ _ _); [done|destruct (default _ _) as [[??]?]].
  cbn. unfold u8_set. rewrite !ta_get_set_ne by lia. done.
Qed.

Lemma slopeRun_slope_length out ps :
  length (slopeData (slopeRun m out ps)) = length (slopeData out).
Proof.
  revert out. induction ps as [|p ps IH]; intros out; [done|].
  cbn. unfold slopeRun in IH. rewrite IH. apply slopePixel_slope_length.
Qed.

Lemma slopeRun_rgba_length out ps :
  length (rgbaData (slopeRun m out ps)) = length (rgbaData out).
Proof.
  revert out. induction ps as [|p ps IH]; intros out; [done|].
  cbn. unfold slopeRun in IH. rewrite IH. apply slopePixel_rgba_length.
Qed.

(** Frame: an index no visited pixel owns keeps its slope value. *)
Lemma slopeRun_slope_other out ps j :
  (forall y x, (y, x) ∈ ps -> j <> y * W + x) ->
  ta_get (slopeData (slopeRun m out ps)) j = ta_get (slopeData out) j.
Proof.
  revert out. induction ps as [|[y x] ps IH]; intros out Hj; [done|].
  cbn. unfold slopeRun in IH. rewrite IH.
  - apply slopePixel_slope_other, Hj. left.
  - intros y' x' Hin. apply Hj. by right.
Qed.

(** Frame: a byte outside the four bytes of every visited pixel is kept. *)
Lemma slopeRun_rgba_other out ps j :
  (forall y x, (y, x) ∈ ps -> ~ ((y * W + x) * 4 <= j < (y * W + x) * 4 + 4)) ->
  ta_get (rgbaData (slopeRun m out ps)) j = ta_get (rgbaData out) j.
Proof.
  revert out. induction ps as [|[y x] ps IH]; intros out Hj; [done|].
  cbn. unfold slopeRun in IH. rewrite IH.
  - apply slopePixel_rgba_other, Hj. left.
  - intros y' x' Hin. apply Hj. by right.
Qed.

Lemma ownsIndex_app l k y x : ownsIndex m (l ++ k) y x -> ownsIndex m l y x /\ ownsIndex m k y x.
Proof.
  intros Ho. split; intros y' x' Hin; apply Ho; apply elem_of_app; auto.
Qed.

Lemma slopeRun_snoc out ps p :
  slopeRun m out (ps ++ [p]) = slopeStep m (slopeRun m out ps) p.1 p.2.
Proof. unfold slopeRun. by rewrite foldl_app. Qed.

(** What a run leaves in the slope raster at a pixel it visits. *)
Lemma slopeRun_slope_at out ps y x :
  (y, x) ∈ ps -> ownsIndex m ps y x ->
  0 <= y * W + x < Z.of_nat (length (slopeData out)) ->
  ta_get (slopeData (slopeRun m out ps)) (y * W + x)
  = Some (fround (if noDataAt m y x then lit 0 else slopeAt m y x)).
Proof.
  intros Hin Hown Hrange. induction ps as [|p ps IH] using rev_ind.
  - by apply elem_of_nil in Hin.
  - rewrite slopeRun_snoc. apply ownsIndex_app in Hown as [Hown Hp].
    destruct (decide (p = (y, x))) as [->|Hne].
    + cbn [fst snd]. destruct (noDataAt m y x) eqn:Hnd.
      * rewrite slopePixel_nodata by done. cbn. apply ta_get_set_eq.
        by rewrite slopeRun_slope_length.
      * unfold slopeStep, slopePixel. fold (zNorth m y x) (zSouth m y x) (zEast m y x) (zWest m y x).
        fold (noDataAt m y x). rewrite Hnd. cbv zeta. fold (slopeAt m y x).
        destruct (default _ _) as [[??]?]. cbn. apply ta_get_set_eq.
        by rewrite slopeRun_slope_length.
    + destruct p as [y' x']. cbn [fst snd].
      rewrite slopePixel_slope_other.
      * apply IH; [|done]. apply elem_of_app in Hin as [Hin|Hin]; [done|].
        apply list_elem_of_singleton in Hin. congruence.
      * intros Heq. apply Hne. apply Hp; [|done]. apply list_elem_of_singleton. done.
Qed.

(** A no-data pixel leaves its four bytes as the run found them. *)
Lemma slopeRun_rgba_nodata out ps y x j :
  noDataAt m y x = true -> ownsIndex m ps y x ->
  (y * W + x) * 4 <= j < (y * W + x) * 4 + 4 ->
  ta_get (rgbaData (slopeRun m out ps)) j = ta_get (rgbaData out) j.
Proof.
  intros Hnd Hown Hj. induction ps as [|p ps IH] using rev_ind; [done|].
  rewrite slopeRun_snoc. apply ownsIndex_app in Hown as [Hown Hp].
  destruct (decide (p = (y, x))) as [->|Hne].
  - cbn [fst snd]. rewrite slopePixel_nodata by done. cbn. by apply IH.
  - destruct p as [y' x']. cbn [fst snd]. rewrite slopePixel_rgba_other; [by apply IH|].
    intros Hj'. apply Hne, Hp; [by apply list_elem_of_singleton|lia].
Qed.

(** The four bytes a run leaves at a pixel with data. *)
Lemma slopeRun_rgba_at out ps y x r g b :
  noDataAt m y x = false ->
  chroma_rgb (pickColor (slopeAt m y x)) = Some (r, g, b) ->
  (y, x) ∈ ps -> ownsIndex m ps y x ->
  0 <= y * W + x -> (y * W + x) * 4 + 3 < Z.of_nat (length (rgbaData out)) ->
  ta_get (rgbaData (slopeRun m out ps)) ((y * W + x) * 4) = Some (r mod 256)
  /\ ta_get (rgbaData (slopeRun m out ps)) ((y * W + x) * 4 + 1) = Some (g mod 256)
  /\ ta_get (rgbaData (slopeRun m out ps)) ((y * W + x) * 4 + 2) = Some (b mod 256)
  /\ ta_get (rgbaData (slopeRun m out ps)) ((y * W + x) * 4 + 3) = Some 210.
Proof.
  intros Hnd Hc Hin Hown Hlo Hhi. induction ps as [|p ps IH] using rev_ind.
  - by apply elem_of_nil in Hin.
  - rewrite slopeRun_snoc. apply ownsIndex_app in Hown as [Hown Hp].
    destruct (decide (p = (y, x))) as [->|Hne].
    + cbn [fst snd]. rewrite (slopePixel_data _ _ _ r g b) by done. cbn [rgbaData].
      pose proof (slopeRun_rgba_length out ps) as Hlen.
      unfold u8_set.
      repeat split.
      * rewrite !ta_get_set_ne by lia. apply ta_get_set_eq. lia.
      * rewrite !ta_get_set_ne by lia. apply ta_get_set_eq.
        rewrite ta_set_length. lia.
      * rewrite !ta_get_set_ne by lia. apply ta_get_set_eq.
        rewrite !ta_set_length. lia.
      * apply ta_get_set_eq. rewrite !ta_set_length. lia.
    + destruct p as [y' x']. cbn [fst snd].
      assert (y' * W + x' <> y * W + x) as Hidx.
      { intros Heq. apply Hne, Hp; [by apply list_elem_of_singleton|done]. }
      rewrite !slopePixel_rgba_other by lia.
      apply IH; [|done]. apply elem_of_app in Hin as [Hin|Hin]; [done|].
      apply list_elem_of_singleton in Hin. congruence.
Qed.

End SlopeLoop.

(** ** The slope raster *)

(** The loop returns the colour it started with, when the slope exceeds the
    [max] of every entry, and otherwise the colour of an entry whose [max]
    the slope does not exceed. *)
Lemma pickColor_from_cases {num : Type} `{JSNumber num}
    (ranges : list SlopeRange) (color0 : string) (slopeDeg : num) :
  (Forall (fun q => (slopeDeg <=? lit (max q))%js = false) ranges
   /\ pickColor_from ranges color0 slopeDeg = color0)
  \/ exists range, range ∈ ranges
       /\ (slopeDeg <=? lit (max range))%js = true
       /\ pickColor_from ranges color0 slopeDeg = color range.
Proof.
  induction ranges as [|range rest IH]; [by left|].
  cbn [pickColor_from]. destruct (leb slopeDeg _) eqn:Hle.
  - right. exists range. split; [left|done].
  - destruct IH as [[Hnone IH] | (range' & Hin & Hle' & IH)].
    + left. split; [by constructor|done].
    + right. exists range'. split; [by right|done].
Qed.

Lemma isRgb_spec (c : string) :
  isRgb c = true ->
  exists r g b, chroma_rgb c = Some (r, g, b)
    /\ 0 <= r < 256 /\ 0 <= g < 256 /\ 0 <= b < 256.
Proof.
  unfold isRgb. destruct (chroma_rgb c) as [[[r g] b]|]; [|done].
  intros Hb. exists r, g, b. split; [done|]. lia.
Qed.

(** Every colour the classification can pick is a hex colour of three
    bytes. *)
Lemma chroma_rgb_pickColor {num : Type} `{JSNumber num} (slopeDeg : num) :
  exists r g b, chroma_rgb (pickColor slopeDeg) = Some (r, g, b)
    /\ 0 <= r < 256 /\ 0 <= g < 256 /\ 0 <= b < 256.
Proof.
  apply isRgb_spec.
  assert (forallb isRgb (fallbackColor :: map color SLOPE_RANGES) = true) as Hall
    by (vm_compute; reflexivity).
  rewrite forallb_forall in Hall. apply Hall.
  unfold pickColor.
  destruct (pickColor_from_cases SLOPE_RANGES fallbackColor slopeDeg)
    as [[_ ->] | (range & Hin & _ & ->)]; [by left|].
  right. apply in_map. by apply list_elem_of_In.
Qed.

Section SlopeRasterFacts.
Context {num : Type} `{JSNumber num}.
Variable m : Mosaic num.
Local Abbreviation W := (mosaicWidth m).
Local Abbreviation Ht := (mosaicHeight m).

Lemma computeSlope_run :
  computeSlope m
  = slopeRun m
      {| slopeData := f32_new (Z.of_nat (length (mosaicData m)));
         rgbaData := u8_new (Z.of_nat (length (mosaicData m)) * 4) |}
      (interior W Ht).
Proof. unfold computeSlope, slopeRun, interior. cbv zeta. by rewrite foldl_nested. Qed.

Lemma interior_ownsIndex y x :
  1 <= x < W - 1 -> ownsIndex m (interior W Ht) y x.
Proof.
  intros Hx y' x' Hin Heq. apply elem_of_interior in Hin as [_ Hx'].
  apply pixel_index_inj in Heq as [-> ->]; [done|lia|lia].
Qed.

Lemma interior_index_range y x :
  wellFormed m -> 1 <= y < Ht - 1 -> 1 <= x < W - 1 ->
  0 <= y * W + x /\ y * W + x < Z.of_nat (length (mosaicData m)).
Proof. intros (HW & HH & Hlen) Hy Hx. rewrite Hlen. nia. Qed.

(** An interior pixel with a sample below the threshold: the slope stored
    is the literal 0 and its four bytes are never written. *)
Lemma computeSlope_nodata y x :
  wellFormed m -> 1 <= y < Ht - 1 -> 1 <= x < W - 1 ->
  noDataAt m y x = true ->
  ta_get (slopeData (computeSlope m)) (y * W + x) = Some (fround (lit 0))
  /\ forall k, 0 <= k < 4 ->
       ta_get (rgbaData (computeSlope m)) ((y * W + x) * 4 + k) = Some 0.
Proof.
  intros Hwf Hy Hx Hnd. destruct (interior_index_range y x) as [Hlo Hhi]; try done.
  rewrite computeSlope_run. split.
  - rewrite slopeRun_slope_at, Hnd; [done| |by apply interior_ownsIndex|].
    + by apply elem_of_interior.
    + cbn. unfold f32_new. rewrite length_replicate. lia.
  - intros k Hk. rewrite (slopeRun_rgba_nodata m _ _ y x);
      [|done|by apply interior_ownsIndex|lia].
    cbn. apply ta_get_replicate. lia.
Qed.

(** An interior pixel with data: the slope stored and the colour written. *)
Lemma computeSlope_data y x r g b :
  wellFormed m -> 1 <= y < Ht - 1 -> 1 <= x < W - 1 ->
  noDataAt m y x = false ->
  chroma_rgb (pickColor (slopeAt m y x)) = Some (r, g, b) ->
  ta_get (slopeData (computeSlope m)) (y * W + x) = Some (fround (slopeAt m y x))
  /\ ta_get (rgbaData (computeSlope m)) ((y * W + x) * 4) = Some (r mod 256)
  /\ ta_get (rgbaData (computeSlope m)) ((y * W + x) * 4 + 1) = Some (g mod 256)
  /\ ta_get (rgbaData (computeSlope m)) ((y * W + x) * 4 + 2) = Some (b mod 256)
  /\ ta_get (rgbaData (computeSlope m)) ((y * W + x) * 4 + 3) = Some 210.
Proof.
  intros Hwf Hy Hx Hnd Hc. destruct (interior_index_range y x) as [Hlo Hhi]; try done.
  rewrite computeSlope_run. split.
  - rewrite slopeRun_slope_at, Hnd; [done| |by apply interior_ownsIndex|].
    + by apply elem_of_interior.
    + cbn. unfold f32_new. rewrite length_replicate. lia.
  - apply slopeRun_rgba_at; try done.
    + by apply elem_of_interior.
    + by apply interior_ownsIndex.
    + cbn. unfold u8_new. rewrite length_replicate. lia.
Qed.

End SlopeRasterFacts.

(** C9. The outermost one-pixel border of the slope raster (row 0, the last
    row, column 0, the last column) is never written by the slope
    computation: for every mosaic, a border pixel's slope value and its four
    RGBA bytes are those of the freshly allocated arrays, which are 0 (slope
    0, fully transparent) when the buffer holds one sample per pixel. *)
Theorem border_never_written {num : Type} `{JSNumber num}
    (m : Mosaic num) (r c : Z) :
  0 <= r < mosaicHeight m -> 0 <= c < mosaicWidth m ->
  r = 0 \/ r = mosaicHeight m - 1 \/ c = 0 \/ c = mosaicWidth m - 1 ->
  let j := r * mosaicWidth m + c in
  let n := Z.of_nat (length (mosaicData m)) in
  ta_get (slopeData (computeSlope m)) j = ta_get (f32_new n) j
  /\ (forall k, 0 <= k < 4 ->
        ta_get (rgbaData (computeSlope m)) (j * 4 + k)
        = ta_get (u8_new (n * 4)) (j * 4 + k))
  /\ (wellFormed m ->
        ta_get (slopeData (computeSlope m)) j = Some (lit 0)
        /\ forall k, 0 <= k < 4 ->
             ta_get (rgbaData (computeSlope m)) (j * 4 + k) = Some 0).
Proof.
  intros Hr Hc Hborder j n.
  assert (forall y x, (y, x) ∈ interior (mosaicWidth m) (mosaicHeight m) ->
            j <> y * mosaicWidth m + x) as Hfree.
  { intros y x Hin Heq. apply elem_of_interior in Hin as [Hy Hx].
    apply pixel_index_inj in Heq as [-> ->]; lia. }
  assert (ta_get (slopeData (computeSlope m)) j = ta_get (f32_new n) j) as Hs.
  { rewrite computeSlope_run. by rewrite (slopeRun_slope_other m _ _ j Hfree). }
  assert (forall k, 0 <= k < 4 ->
            ta_get (rgbaData (computeSlope m)) (j * 4 + k)
            = ta_get (u8_new (n * 4)) (j * 4 + k)) as Hb.
  { intros k Hk. rewrite computeSlope_run. rewrite slopeRun_rgba_other; [done|].
    intros y x Hin Hj. apply (Hfree y x Hin). lia. }
  split; [done|]. split; [done|].
  intros (HW & HH & Hlen).
  assert (0 <= j < n) as Hj by (unfold j, n; rewrite Hlen; nia).
  split.
  - rewrite Hs. by apply ta_get_replicate.
  - intros k Hk. rewrite Hb by done. apply ta_get_replicate. lia.
Qed.

(** ** Facts of binary64 arithmetic *)

Section Binary64Facts.
Local Open Scope float_scope.

Lemma of_spec_float (x : float) (f : spec_float) : Prim2SF x = f -> x = SF2Prim f.
Proof. intros <-. symmetry. apply SF2Prim_Prim2SF. Qed.

(** The difference of a finite Number and itself is +0. *)
Lemma sub_diag (c : float) : B64.finite c = true -> c - c = 0.
Proof.
  unfold B64.finite. intros Hc. apply of_spec_float with (f := S754_zero false).
  rewrite sub_spec. destruct (Prim2SF c) as [s|s| |s m e]; try discriminate.
  - by destruct s.
  - unfold SF64sub, SFsub. cbv zeta.
    set (a := cond_Zopp s _).
    replace (Z.sub a a) with 0%Z; [reflexivity|].
    symmetry. apply Z.sub_diag.
Qed.

(** Zero divided by a Number other than 0 and NaN is a zero. *)
Lemma div_zero_l (d : float) : B64.divisor d = true -> 0 / d = 0 \/ 0 / d = (-0).
Proof.
  unfold B64.divisor. intros Hd.
  assert (exists s, Prim2SF (0 / d) = S754_zero s) as [s Hs].
  { rewrite div_spec. change (Prim2SF 0) with (S754_zero false).
    destruct (Prim2SF d) as [s|s| |s m e]; try discriminate; by eexists. }
  apply of_spec_float in Hs. destruct s; [right|left]; exact Hs.
Qed.

Lemma SFcompare_antisym (a b : spec_float) :
  SFcompare b a = option_map CompOpp (SFcompare a b).
Proof.
  destruct a as [sa|sa| |sa ma ea], b as [sb|sb| |sb mb eb]; cbn;
    try done; try (by destruct sa); try (by destruct sb); try (by destruct sa, sb).
  destruct sa, sb; try done; f_equal.
  - rewrite (Z.compare_antisym ea eb). destruct (ea ?= eb)%Z; cbn; try done.
    f_equal. symmetry. exact (Pos.compare_cont_antisym ma mb Eq).
  - rewrite (Z.compare_antisym ea eb). destruct (ea ?= eb)%Z; cbn; try done.
    symmetry. exact (Pos.compare_cont_antisym ma mb Eq).
Qed.

(** [a <= b] excludes [b < a]. *)
Lemma leb_not_ltb (a b : float) : (a <=? b) = true -> (b <? a) = false.
Proof.
  rewrite leb_spec, ltb_spec. unfold SFleb, SFltb.
  rewrite (SFcompare_antisym (Prim2SF a) (Prim2SF b)).
  by destruct (SFcompare (Prim2SF a) (Prim2SF b)) as [[]|].
Qed.

Context {E : B64.Engine}.

(** Four equal finite samples give the slope 0. *)
Lemma slopeDegOf_flat (c cx cy : float) :
  B64.finite c = true ->
  B64.divisor (lit 2 * cx)%js = true -> B64.divisor (lit 2 * cy)%js = true ->
  slopeDegOf c c c c cx cy = 0.
Proof.
  intros Hc Hx Hy. unfold slopeDegOf.
  cbn [sub add mul div Math_sqrt Math_atan Math_PI B64.number] in *.
  rewrite (sub_diag c Hc).
  destruct (div_zero_l _ Hx) as [-> | ->], (div_zero_l _ Hy) as [-> | ->].
  - change (sqrt (0 * 0 + 0 * 0)) with 0. by rewrite B64.js_atan_zero.
  - change (sqrt (0 * 0 + -0 * -0)) with 0. by rewrite B64.js_atan_zero.
  - change (sqrt (-0 * -0 + 0 * 0)) with 0. by rewrite B64.js_atan_zero.
  - change (sqrt (-0 * -0 + -0 * -0)) with 0. by rewrite B64.js_atan_zero.
Qed.

Lemma f32_get_constant (c : float) (a : list float) (i : Z) :
  Forall (eq c) a -> 0 <= i < Z.of_nat (length a) -> f32_get a i = c.
Proof.
  intros Hall Hi. unfold f32_get. destruct (ta_get_is_Some a i Hi) as [v Hv].
  rewrite Hv. cbn. unfold ta_get in Hv. case_decide; [|done].
  symmetry. by eapply Forall_lookup_1 in Hall.
Qed.

End Binary64Facts.

(** ** The slope of an interior pixel *)

Section InteriorPixels.
Context {E : B64.Engine}.
Variable m : Mosaic float.
Local Abbreviation W := (mosaicWidth m).
Local Abbreviation Ht := (mosaicHeight m).

Lemma noDataAt_true y x :
  (zNorth m y x <? - lit 10000)%js = true
  \/ (zSouth m y x <? - lit 10000)%js = true
  \/ (zEast m y x <? - lit 10000)%js = true
  \/ (zWest m y x <? - lit 10000)%js = true ->
  noDataAt m y x = true.
Proof.
  unfold noDataAt, isNoData. intros [-> | [-> | [-> | ->]]];
    rewrite ?orb_true_r; done.
Qed.

Lemma noDataAt_false y x :
  (- lit 10000 <=? zNorth m y x)%js = true ->
  (- lit 10000 <=? zSouth m y x)%js = true ->
  (- lit 10000 <=? zEast m y x)%js = true ->
  (- lit 10000 <=? zWest m y x)%js = true ->
  noDataAt m y x = false.
Proof.
  intros HN HS HE HW. unfold noDataAt, isNoData.
  cbn [ltb leb B64.number] in *.
  by rewrite !leb_not_ltb.
Qed.

End InteriorPixels.

(** C3. For every interior pixel, if any of its four neighbourhood elevation
    samples (north, south, east, west) is below -10000, the pixel's slope
    value is 0 and its four RGBA bytes are 0 (fully transparent), whatever
    the other samples are. *)
Theorem nodata_pixel_is_transparent {E : B64.Engine} (m : Mosaic float) (y x : Z) :
  wellFormed m ->
  1 <= y < mosaicHeight m - 1 -> 1 <= x < mosaicWidth m - 1 ->
  (zNorth m y x <? - lit 10000)%js = true
  \/ (zSouth m y x <? - lit 10000)%js = true
  \/ (zEast m y x <? - lit 10000)%js = true
  \/ (zWest m y x <? - lit 10000)%js = true ->
  ta_get (slopeData (computeSlope m)) (y * mosaicWidth m + x) = Some 0%float
  /\ forall k, 0 <= k < 4 ->
       ta_get (rgbaData (computeSlope m)) ((y * mosaicWidth m + x) * 4 + k) = Some 0.
Proof.
  intros Hwf Hy Hx Hz. apply noDataAt_true in Hz.
  by destruct (computeSlope_nodata m y x Hwf Hy Hx Hz) as [Hs Hb].
Qed.

Section NodataRun.
#[local] Existing Instance B64.Series.engine.

Lemma nodata_pixel_is_transparent_witness :
  (wellFormed Samples.pit
   /\ (zNorth Samples.pit 1 1 <? - lit 10000)%js = true)
  /\ ta_get (slopeData (computeSlope Samples.pit)) 4 = Some 0%float
  /\ forall k, 0 <= k < 4 ->
       ta_get (rgbaData (computeSlope Samples.pit)) (16 + k) = Some 0.
Proof.
  assert (wellFormed Samples.pit) as Hwf by (vm_compute; intuition discriminate).
  split; [split; [exact Hwf|reflexivity]|].
  apply (nodata_pixel_is_transparent Samples.pit 1 1 Hwf).
  1,2: vm_compute; intuition discriminate.
  left; reflexivity.
Defined.

Lemma border_never_written_witness :
  (0 <= 0 < mosaicHeight Samples.ramp /\ 0 <= 2 < mosaicWidth Samples.ramp
   /\ wellFormed Samples.ramp)
  /\ ta_get (slopeData (computeSlope Samples.ramp)) 2 = Some 0%float
  /\ forall k, 0 <= k < 4 ->
       ta_get (rgbaData (computeSlope Samples.ramp)) (8 + k) = Some 0.
Proof.
  assert (wellFormed Samples.ramp) as Hwf by (vm_compute; intuition discriminate).
  split; [vm_compute; intuition discriminate|].
  destruct (border_never_written Samples.ramp 0 2) as (_ & _ & Hzero).
  1,2: vm_compute; intuition discriminate.
  - left; reflexivity.
  - exact (Hzero Hwf).
Defined.

End NodataRun.

(** C1. For every interior pixel whose four neighbour elevations are all at
    or above the no-data threshold, the slope computed is
    [atan(sqrt(dzdx^2 + dzdy^2)) * (180 / PI)] with
    [dzdx = (east - west) / (2 * cellSizeX)] and
    [dzdy = (north - south) / (2 * cellSizeY)]; the slope raster keeps it
    (as a 32-bit float) and the pixel gets the colour of its class with
    alpha 210.  In particular, when every sample of the mosaic is one and
    the same finite elevation (and the two divisors are Numbers other than
    0 and NaN), the slope is 0 and the colour is that of the first class of
    the table. *)
Theorem interior_slope {E : B64.Engine} (m : Mosaic float) (y x : Z) :
  wellFormed m ->
  1 <= y < mosaicHeight m - 1 -> 1 <= x < mosaicWidth m - 1 ->
  (- lit 10000 <=? zNorth m y x)%js = true ->
  (- lit 10000 <=? zSouth m y x)%js = true ->
  (- lit 10000 <=? zEast m y x)%js = true ->
  (- lit 10000 <=? zWest m y x)%js = true ->
  let idx := y * mosaicWidth m + x in
  let dzdx := ((zEast m y x - zWest m y x) / (lit 2 * cellSizeX m))%js in
  let dzdy := ((zNorth m y x - zSouth m y x) / (lit 2 * cellSizeY m))%js in
  let slopeDeg :=
    (Math_atan (Math_sqrt (dzdx * dzdx + dzdy * dzdy)) * (lit 180 / Math_PI))%js in
  (ta_get (slopeData (computeSlope m)) idx = Some (fround slopeDeg)
   /\ exists r g b,
        chroma_rgb (pickColor slopeDeg) = Some (r, g, b)
        /\ ta_get (rgbaData (computeSlope m)) (idx * 4) = Some r
        /\ ta_get (rgbaData (computeSlope m)) (idx * 4 + 1) = Some g
        /\ ta_get (rgbaData (computeSlope m)) (idx * 4 + 2) = Some b
        /\ ta_get (rgbaData (computeSlope m)) (idx * 4 + 3) = Some 210)
  /\ (forall c : float,
        Forall (eq c) (mosaicData m) -> B64.finite c = true ->
        B64.divisor (lit 2 * cellSizeX m)%js = true ->
        B64.divisor (lit 2 * cellSizeY m)%js = true ->
        slopeDeg = 0%float
        /\ ta_get (slopeData (computeSlope m)) idx = Some 0%float
        /\ (exists first, SLOPE_RANGES !! 0%nat = Some first
              /\ pickColor slopeDeg = color first)
        /\ ta_get (rgbaData (computeSlope m)) (idx * 4) = Some 46
        /\ ta_get (rgbaData (computeSlope m)) (idx * 4 + 1) = Some 204
        /\ ta_get (rgbaData (computeSlope m)) (idx * 4 + 2) = Some 113
        /\ ta_get (rgbaData (computeSlope m)) (idx * 4 + 3) = Some 210).
Proof.
  intros Hwf Hy Hx HN HS HE HW idx dzdx dzdy slopeDeg.
  pose proof (noDataAt_false m y x HN HS HE HW) as Hnd.
  assert (slopeAt m y x = slopeDeg) as Hslope by reflexivity.
  destruct (chroma_rgb_pickColor slopeDeg) as (r & g & b & Hc & Hr & Hg & Hb).
  destruct (computeSlope_data m y x r g b Hwf Hy Hx Hnd) as (Hs & H0 & H1 & H2 & H3);
    [by rewrite Hslope|].
  rewrite Hslope in Hs. rewrite Z.mod_small in H0, H1, H2 by done.
  split.
  - split; [exact Hs|]. exists r, g, b. done.
  - intros c Hall Hfin Hdx Hdy.
    destruct Hwf as (HW0 & HH0 & Hlen).
    assert (zNorth m y x = c /\ zSouth m y x = c /\ zEast m y x = c /\ zWest m y x = c)
      as (HzN & HzS & HzE & HzW).
    { unfold zNorth, zSouth, zEast, zWest.
      repeat split; apply f32_get_constant; try done; rewrite Hlen; nia. }
    assert (slopeDeg = 0%float) as Hzero.
    { rewrite <- Hslope. unfold slopeAt. rewrite HzN, HzS, HzE, HzW.
      by apply slopeDegOf_flat. }
    rewrite Hzero in Hs, Hc.
    assert ((r, g, b) = (46, 204, 113)) as Hrgb.
    { apply (inj Some). rewrite <- Hc. reflexivity. }
    simplify_eq. rewrite Hzero. repeat split; try done.
    exists {| max := 2; label := "0° - 2°"; color := "#2ecc71" |}. done.
Qed.

Section FlatRun.
#[local] Existing Instance B64.Series.engine.

Lemma interior_slope_witness :
  (wellFormed Samples.flat
   /\ (- lit 10000 <=? zNorth Samples.flat 1 1)%js = true
   /\ (- lit 10000 <=? zSouth Samples.flat 1 1)%js = true
   /\ (- lit 10000 <=? zEast Samples.flat 1 1)%js = true
   /\ (- lit 10000 <=? zWest Samples.flat 1 1)%js = true
   /\ Forall (eq 100%float) (mosaicData Samples.flat)
   /\ B64.finite 100 = true
   /\ B64.divisor (lit 2 * cellSizeX Samples.flat)%js = true
   /\ B64.divisor (lit 2 * cellSizeY Samples.flat)%js = true)
  /\ ta_get (slopeData (computeSlope Samples.flat)) 4 = Some 0%float
  /\ ta_get (rgbaData (computeSlope Samples.flat)) 16 = Some 46
  /\ ta_get (rgbaData (computeSlope Samples.flat)) 17 = Some 204
  /\ ta_get (rgbaData (computeSlope Samples.flat)) 18 = Some 113
  /\ ta_get (rgbaData (computeSlope Samples.flat)) 19 = Some 210.
Proof.
  assert (wellFormed Samples.flat) as Hwf by (vm_compute; intuition discriminate).
  assert (Forall (eq 100%float) (mosaicData Samples.flat)) as Hall
    by (cbn; repeat constructor).
  split; [repeat split; try reflexivity; done|].
  destruct (interior_slope Samples.flat 1 1 Hwf) as [_ Hflat].
  1,2: vm_compute; intuition discriminate.
  1-4: reflexivity.
  destruct (Hflat 100%float Hall) as (_ & Hs & _ & H0 & H1 & H2 & H3);
    [reflexivity..|].
  exact (conj Hs (conj H0 (conj H1 (conj H2 H3)))).
Defined.

End FlatRun.

(** ** Classification *)

Lemma pickColor_from_first {num : Type} `{JSNumber num}
    (before after : list SlopeRange) (range : SlopeRange)
    (color0 : string) (slopeDeg : num) :
  Forall (fun q => (slopeDeg <=? lit (max q))%js = false) before ->
  (slopeDeg <=? lit (max range))%js = true ->
  pickColor_from (before ++ range :: after) color0 slopeDeg = color range.
Proof.
  intros Hbefore Hrange. induction Hbefore as [|q before Hq _ IH]; cbn.
  - by rewrite Hrange.
  - by rewrite Hq.
Qed.

(** C2. The breakpoints of the table are 2, 5, 9, 15, 20, 25, 30, 35, 45 and
    999, in ascending order, and classification gives a pixel the colour of
    the first entry whose [max] is greater than or equal to the slope: the
    colour of an entry, when the slope exceeds the [max] of every entry
    before it and not its own.  Hence a slope of exactly 2 gets the colour
    of the first class and a slope of 2.0001 the colour of the second. *)
Theorem classification_first_match :
  map max SLOPE_RANGES = [2; 5; 9; 15; 20; 25; 30; 35; 45; 999]
  /\ (forall (num : Type) (N : JSNumber num) (slopeDeg : num)
        (before after : list SlopeRange) (range : SlopeRange),
        SLOPE_RANGES = before ++ range :: after ->
        Forall (fun q => (slopeDeg <=? lit (max q))%js = false) before ->
        (slopeDeg <=? lit (max range))%js = true ->
        pickColor slopeDeg = color range)
  /\ (forall E : B64.Engine,
        exists first second : SlopeRange,
          SLOPE_RANGES !! 0%nat = Some first
          /\ SLOPE_RANGES !! 1%nat = Some second
          /\ color first <> color second
          /\ pickColor 2%float = color first
          /\ pickColor Samples.slope_2_0001 = color second).
Proof.
  split; [reflexivity|]. split.
  - intros num N slopeDeg before after range Htable Hbefore Hrange.
    unfold pickColor. rewrite Htable. by apply pickColor_from_first.
  - intros E. do 2 eexists. do 2 (split; [reflexivity|]).
    split; [discriminate|]. split; reflexivity.
Qed.

(** ** The slope in exact arithmetic *)

Section ExactSlope.
Local Open Scope R_scope.



Lemma less_spec (a b : R) : Exact.less a b = true <-> a < b.
Proof. unfold Exact.less. by destruct (Rlt_dec a b). Qed.


End ExactSlope.

(** ** Which colour the loop ends with *)






(** *** Samples that are not numbers, in binary64 *)

Section NaNSamples.
Local Open Scope float_scope.

Lemma sub_nan_l (b : float) : nan - b = nan.
Proof.
  apply of_spec_float with (f := S754_nan). rewrite sub_spec.
  change (Prim2SF nan) with S754_nan. by destruct (Prim2SF b).
Qed.

Lemma sub_nan_r (a : float) : a - nan = nan.
Proof.
  apply of_spec_float with (f := S754_nan). rewrite sub_spec.
  change (Prim2SF nan) with S754_nan. by destruct (Prim2SF a).
Qed.

Lemma div_nan_l (d : float) : nan / d = nan.
Proof.
  apply of_spec_float with (f := S754_nan). rewrite div_spec.
  change (Prim2SF nan) with S754_nan. by destruct (Prim2SF d).
Qed.

Lemma add_nan_l (b : float) : nan + b = nan.
Proof.
  apply of_spec_float with (f := S754_nan). rewrite add_spec.
  change (Prim2SF nan) with S754_nan. by destruct (Prim2SF b).
Qed.

Lemma add_nan_r (a : float) : a + nan = nan.
Proof.
  apply of_spec_float with (f := S754_nan). rewrite add_spec.
  change (Prim2SF nan) with S754_nan. by destruct (Prim2SF a).
Qed.

Context {E : B64.Engine}.

(** A NaN among the four samples makes the slope NaN. *)
Lemma slopeDegOf_nan (zN zS zE zW cx cy : float) :
  zN = nan \/ zS = nan \/ zE = nan \/ zW = nan ->
  slopeDegOf zN zS zE zW cx cy = nan.
Proof.
  intros Hnan. unfold slopeDegOf.
  set (dx := (lit 2 * cx)%js). set (dy := (lit 2 * cy)%js).
  cbn [sub add mul div Math_sqrt Math_atan Math_PI B64.number].
  assert ((zE - zW) / dx = nan \/ (zN - zS) / dy = nan) as [-> | ->].
  { destruct Hnan as [-> | [-> | [-> | ->]]];
      rewrite ?sub_nan_l, ?sub_nan_r, div_nan_l; auto. }
  - change (nan * nan) with nan. rewrite add_nan_l.
    change (sqrt nan) with nan. by rewrite B64.js_atan_nan.
  - change (nan * nan) with nan. rewrite add_nan_r.
    change (sqrt nan) with nan. by rewrite B64.js_atan_nan.
Qed.

(** An interior pixel that passes the guard with a NaN among its four
    samples: its slope is NaN, no entry of the table matches and the colour
    written is the fallback colour, with alpha 210. *)
Lemma nan_sample_uses_fallback (m : Mosaic float) (y x : Z) :
  wellFormed m ->
  (1 <= y < mosaicHeight m - 1)%Z -> (1 <= x < mosaicWidth m - 1)%Z ->
  noDataAt m y x = false ->
  zNorth m y x = nan \/ zSouth m y x = nan
  \/ zEast m y x = nan \/ zWest m y x = nan ->
  let idx := (y * mosaicWidth m + x)%Z in
  pickColor (slopeAt m y x) = fallbackColor
  /\ ta_get (slopeData (computeSlope m)) idx = Some nan
  /\ ta_get (rgbaData (computeSlope m)) (idx * 4) = Some 0%Z
  /\ ta_get (rgbaData (computeSlope m)) (idx * 4 + 1) = Some 0%Z
  /\ ta_get (rgbaData (computeSlope m)) (idx * 4 + 2) = Some 0%Z
  /\ ta_get (rgbaData (computeSlope m)) (idx * 4 + 3) = Some 210%Z.
Proof.
  intros Hwf Hy Hx Hnd Hnan idx.
  assert (slopeAt m y x = nan) as Hs by (by apply slopeDegOf_nan).
  destruct (computeSlope_data m y x 0 0 0 Hwf Hy Hx Hnd) as (H0 & H1 & H2 & H3 & H4);
    [by rewrite Hs|].
  rewrite Hs in *. split; [reflexivity|]. done.
Qed.

End NaNSamples.

Section BlankRun.
#[local] Existing Instance B64.Series.engine.


End BlankRun.

(** ** Tile coordinates *)

Section ExactTiles.
Local Open Scope R_scope.







End ExactTiles.



Section EdgeRun.
#[local] Existing Instance B64.Series.engine.
Local Open Scope float_scope.


End EdgeRun.

(** ** The world file *)

Section WorldFileFacts.
Import WorldFile.
Local Open Scope string_scope.











End WorldFileFacts.




(** ** Mosaic assembly *)

Section StoreRun.
Context {A : Type}.
Implicit Types (a : list A) (ws : list (Z * A)).

Lemma storeRun_app a ws ws' : storeRun a (ws ++ ws') = storeRun (storeRun a ws) ws'.
Proof. unfold storeRun. apply foldl_app. Qed.

Lemma storeRun_length a ws : length (storeRun a ws) = length a.
Proof.
  revert a. induction ws as [|w ws IH]; intros a; [done|].
  cbn. unfold storeRun in IH. rewrite IH. apply ta_set_length.
Qed.

Lemma storeRun_other a ws i :
  (forall w, w ∈ ws -> w.1 <> i) -> ta_get (storeRun a ws) i = ta_get a i.
Proof.
  revert a. induction ws as [|w ws IH]; intros a Hi; [done|].
  cbn. unfold storeRun in IH. rewrite IH.
  - apply ta_get_set_ne, Hi. left.
  - intros w' Hin. apply Hi. by right.
Qed.

Lemma storeRun_at a ws i v :
  (i, v) ∈ ws -> (forall w, w ∈ ws -> w.1 = i -> w.2 = v) ->
  0 <= i < Z.of_nat (length a) ->
  ta_get (storeRun a ws) i = Some v.
Proof.
  intros Hin Hsame Hi. induction ws as [|w ws IH] using rev_ind.
  - by apply elem_of_nil in Hin.
  - rewrite storeRun_app. cbn.
    destruct (decide (w.1 = i)) as [Hw|Hw].
    + rewrite <- (Hsame w); [|apply elem_of_app; right; by left|done].
      rewrite <- Hw. apply ta_get_set_eq. rewrite storeRun_length. lia.
    + rewrite ta_get_set_ne by done. apply IH.
      * apply elem_of_app in Hin as [Hin|Hin]; [done|].
        apply list_elem_of_singleton in Hin. by subst w.
      * intros w' Hw'. apply Hsame, elem_of_app. by left.
Qed.

End StoreRun.

Lemma TILE_SIZE_pos : 0 < TILE_SIZE.
Proof. done. Qed.

Lemma mosaic_index_inj (nx dx dy r c dx' dy' r' c' : Z) :
  0 <= dx < nx -> 0 <= dx' < nx ->
  0 <= r < TILE_SIZE -> 0 <= r' < TILE_SIZE ->
  0 <= c < TILE_SIZE -> 0 <= c' < TILE_SIZE ->
  (dy * TILE_SIZE + r) * (nx * TILE_SIZE) + (dx * TILE_SIZE + c)
  = (dy' * TILE_SIZE + r') * (nx * TILE_SIZE) + (dx' * TILE_SIZE + c') ->
  dx = dx' /\ dy = dy' /\ r = r' /\ c = c'.
Proof.
  pose proof TILE_SIZE_pos as Hts. generalize dependent TILE_SIZE. intros ts Hts.
  intros Hdx Hdx' Hr Hr' Hc Hc' Heq.
  apply pixel_index_inj in Heq as [Hrow Hcol]; [|nia|nia].
  assert (ts * dy + r = ts * dy' + r') as Hrow' by lia.
  assert (ts * dx + c = ts * dx' + c') as Hcol' by lia.
  apply Z.div_mod_unique in Hrow' as [-> ->]; [|by left|by left].
  apply Z.div_mod_unique in Hcol' as [-> ->]; [|by left|by left].
  done.
Qed.

Section Assembly.
Context {num : Type} `{JSNumber num}.

Lemma fillTile_storeRun xa ya W (md : list num) (tile : Tile num) :
  fillTile xa ya W md tile = storeRun md (tileWrites xa ya W tile).
Proof.
  unfold fillTile, storeRun, tileWrites. cbv zeta.
  rewrite foldl_nested, foldl_fmap. done.
Qed.

Lemma foldl_fillTile xa ya W (md : list num) (tiles : list (Tile num)) :
  foldl (fillTile xa ya W) md tiles = storeRun md (tiles ≫= tileWrites xa ya W).
Proof.
  revert md. induction tiles as [|t tiles IH]; intros md; [done|].
  cbn [foldl mbind list_bind]. rewrite storeRun_app, <- fillTile_storeRun. apply IH.
Qed.

Lemma elem_of_tilesToFetch xa xb ya yb x y :
  (x, y) ∈ tilesToFetch xa xb ya yb <-> xa <= x <= xb /\ ya <= y <= yb.
Proof.
  change (tilesToFetch xa xb ya yb)
    with (pairs (seqZ xa (xb - xa + 1)) (seqZ ya (yb - ya + 1))).
  rewrite elem_of_pairs, !elem_of_seqZ. lia.
Qed.

Lemma elem_of_validTiles fetch (ts : list (Z * Z)) (t : Tile num) :
  t ∈ validTiles fetch ts <->
  exists x y r, (x, y) ∈ ts /\ fetch x y TILE_ZOOM = Some r
    /\ t = {| tile_x := x; tile_y := y; tile_z := TILE_ZOOM;
              tile_data := data r; tile_width := width r;
              tile_height := height r |}.
Proof.
  unfold validTiles. rewrite list_elem_of_omap. split.
  - intros ([x y] & Hin & Hf). cbn [fst snd] in Hf.
    destruct (fetch x y TILE_ZOOM) as [r|] eqn:Hr; cbn in Hf; [|done].
    injection Hf as <-. by exists x, y, r.
  - intros (x & y & r & Hin & Hr & ->). exists (x, y). split; [done|].
    cbn. by rewrite Hr.
Qed.

Lemma elem_of_tileWrites xa ya W tile i v :
  (i, v) ∈ tileWrites xa ya W tile <->
  exists r c, 0 <= r < TILE_SIZE /\ 0 <= c < TILE_SIZE
    /\ i = ((tile_y tile - ya) * TILE_SIZE + r) * W
           + ((tile_x tile - xa) * TILE_SIZE + c)
    /\ v = fround (f32_get (tile_data tile) (r * TILE_SIZE + c)).
Proof.
  unfold tileWrites. rewrite list_elem_of_fmap. split.
  - intros ([r c] & Heq & Hin). apply elem_of_pairs in Hin as [Hr Hc].
    apply elem_of_seqZ in Hr, Hc. exists r, c. cbn in Heq. simplify_eq. 
    repeat split; try lia.
  - intros (r & c & Hr & Hc & -> & ->). exists (r, c). split; [done|].
    apply elem_of_pairs. rewrite !elem_of_seqZ. lia.
Qed.

(** What the stitched buffer holds at sample [(r, c)] of tile [(tx, ty)]. *)
Lemma assembled_sample fetch xa xb ya yb tx ty r c :
  xa <= tx <= xb -> ya <= ty <= yb ->
  0 <= r < TILE_SIZE -> 0 <= c < TILE_SIZE ->
  let W := (xb - xa + 1) * TILE_SIZE in
  let Ht := (yb - ya + 1) * TILE_SIZE in
  ta_get (foldl (fillTile xa ya W) (f32_new (W * Ht))
            (validTiles fetch (tilesToFetch xa xb ya yb)))
    (((ty - ya) * TILE_SIZE + r) * W + ((tx - xa) * TILE_SIZE + c))
  = Some (match fetch tx ty TILE_ZOOM with
          | Some raster => fround (f32_get (data raster) (r * TILE_SIZE + c))
          | None => lit 0
          end).
Proof.
  intros Htx Hty Hr Hc W Ht. pose proof TILE_SIZE_pos as Hts.
  rewrite foldl_fillTile.
  set (i := ((ty - ya) * TILE_SIZE + r) * W + ((tx - xa) * TILE_SIZE + c)).
  assert (0 <= i < W * Ht) as Hi.
  { assert (0 <= (ty - ya) * TILE_SIZE + r < Ht) as Hrow by (unfold Ht; nia).
    assert (0 <= (tx - xa) * TILE_SIZE + c < W) as Hcol by (unfold W; nia).
    unfold i. set (row := (ty - ya) * TILE_SIZE + r) in *.
    set (col := (tx - xa) * TILE_SIZE + c) in *. nia. }
  assert (forall t r' c', t ∈ validTiles fetch (tilesToFetch xa xb ya yb) ->
            0 <= r' < TILE_SIZE -> 0 <= c' < TILE_SIZE ->
            ((tile_y t - ya) * TILE_SIZE + r') * W
              + ((tile_x t - xa) * TILE_SIZE + c') = i ->
            fetch tx ty TILE_ZOOM
              = Some {| data := tile_data t; width := tile_width t;
                        height := tile_height t |}
            /\ r' = r /\ c' = c) as Hown.
  { intros t r' c' Ht' Hr' Hc' Heq.
    apply elem_of_validTiles in Ht' as (x & y & raster & Hin & Hfetch & ->).
    apply elem_of_tilesToFetch in Hin as [Hx Hy]. cbn in Heq |- *.
    unfold i, W in Heq.
    apply mosaic_index_inj in Heq as (Hdx & Hdy & -> & ->); try lia.
    assert (x = tx) as -> by lia. assert (y = ty) as -> by lia.
    rewrite Hfetch. by destruct raster. }
  destruct (fetch tx ty TILE_ZOOM) as [raster|] eqn:Hfetch.
  - apply storeRun_at.
    + apply list_elem_of_bind.
      exists {| tile_x := tx; tile_y := ty; tile_z := TILE_ZOOM;
                tile_data := data raster; tile_width := width raster;
                tile_height := height raster |}.
      split.
      * apply elem_of_tileWrites. exists r, c. done.
      * apply elem_of_validTiles. exists tx, ty, raster.
        split; [by apply elem_of_tilesToFetch|done].
    + intros [i' v'] Hin Hi'. cbn in Hi' |- *. subst i'.
      apply list_elem_of_bind in Hin as (t & Hin & Ht').
      apply elem_of_tileWrites in Hin as (r' & c' & Hr' & Hc' & Hidx & ->).
      destruct (Hown t r' c' Ht' Hr' Hc') as (Hf & -> & ->); [done|].
      by simplify_eq.
    + unfold f32_new. rewrite length_replicate. lia.
  - rewrite storeRun_other.
    + apply ta_get_replicate. lia.
    + intros [i' v'] Hin Hi'. cbn in Hi'. subst i'.
      apply list_elem_of_bind in Hin as (t & Hin & Ht').
      apply elem_of_tileWrites in Hin as (r' & c' & Hr' & Hc' & Hidx & ->).
      by destruct (Hown t r' c' Ht' Hr' Hc') as (Hf & _).
Qed.

End Assembly.

Section AssembledMosaic.
Context {num : Type} `{JSNumber num}.
Variables (fetch : Z -> Z -> Z -> option (Raster num)) (bounds : Bounds num).

Lemma stitchMosaic_wellFormed xa xb ya yb valid :
  xa <= xb -> ya <= yb -> wellFormed (stitchMosaic bounds xa xb ya yb valid).
Proof.
  intros Hx Hy. pose proof TILE_SIZE_pos as Hts.
  unfold wellFormed, stitchMosaic. cbn [mosaicWidth mosaicHeight mosaicData].
  assert (0 <= (xb - xa + 1) * TILE_SIZE) as HW by nia.
  assert (0 <= (yb - ya + 1) * TILE_SIZE) as HH by nia.
  split; [done|]. split; [done|].
  rewrite foldl_fillTile, storeRun_length. unfold f32_new.
  rewrite length_replicate. apply Z2Nat.id. by apply Z.mul_nonneg_nonneg.
Qed.

Lemma validTiles_nil xa xb ya yb :
  length (validTiles fetch (tilesToFetch xa xb ya yb)) = 0%nat <->
  forall tx ty, xa <= tx <= xb -> ya <= ty <= yb -> fetch tx ty TILE_ZOOM = None.
Proof.
  split.
  - intros Hnil%nil_length_inv tx ty Htx Hty.
    destruct (fetch tx ty TILE_ZOOM) as [r|] eqn:Hr; [|done].
    assert ({| tile_x := tx; tile_y := ty; tile_z := TILE_ZOOM;
               tile_data := data r; tile_width := width r;
               tile_height := height r |}
            ∈ validTiles fetch (tilesToFetch xa xb ya yb)) as Hin.
    { apply elem_of_validTiles. exists tx, ty, r.
      split; [by apply elem_of_tilesToFetch|done]. }
    rewrite Hnil in Hin. by apply elem_of_nil in Hin.
  - intros Hnone. destruct (validTiles fetch _) as [|t ts] eqn:Hv; [done|].
    assert (t ∈ validTiles fetch (tilesToFetch xa xb ya yb)) as Hin
      by (rewrite Hv; left).
    apply elem_of_validTiles in Hin as (x & y & r & Hin & Hr & _).
    apply elem_of_tilesToFetch in Hin as [Hx Hy].
    by rewrite (Hnone x y Hx Hy) in Hr.
Qed.




End AssembledMosaic.

(** C5. When the tile range is [xa..xb] by [ya..yb] and at least one of the
    requested tiles comes back, assembly ends with a mosaic of the full
    tile-grid extent, [(xb - xa + 1) * 512] by [(yb - ya + 1) * 512]
    samples; sample [(r, c)] of a tile that came back is at row
    [(tileY - yMin) * 512 + r] and column [(tileX - xMin) * 512 + c] (as
    the 32-bit float the buffer keeps), and the region of a tile that
    failed is left at 0.  When no tile comes back the request throws
    "Could not download any elevation data." *)
Theorem partial_tile_failure_is_tolerated {num : Type} `{JSNumber num}
    (fetch : Z -> Z -> Z -> option (Raster num)) (bounds : Bounds num)
    (xa xb ya yb : Z) :
  forRange (lng2tile (west bounds) TILE_ZOOM) (lng2tile (east bounds) TILE_ZOOM)
    = Range xa xb ->
  forRange (lat2tile (north bounds) TILE_ZOOM) (lat2tile (south bounds) TILE_ZOOM)
    = Range ya yb ->
  ((exists tx ty, xa <= tx <= xb /\ ya <= ty <= yb
                  /\ is_Some (fetch tx ty TILE_ZOOM)) ->
   exists m : Mosaic num,
     assembleMosaic fetch bounds = Done m
     /\ mosaicWidth m = (xb - xa + 1) * 512
     /\ mosaicHeight m = (yb - ya + 1) * 512
     /\ Z.of_nat (length (mosaicData m)) = mosaicWidth m * mosaicHeight m
     /\ forall tx ty r c,
          xa <= tx <= xb -> ya <= ty <= yb -> 0 <= r < 512 -> 0 <= c < 512 ->
          ta_get (mosaicData m)
            (((ty - ya) * 512 + r) * mosaicWidth m + ((tx - xa) * 512 + c))
          = Some (match fetch tx ty TILE_ZOOM with
                  | Some raster => fround (f32_get (data raster) (r * 512 + c))
                  | None => lit 0
                  end))
  /\ ((forall tx ty, xa <= tx <= xb -> ya <= ty <= yb ->
         fetch tx ty TILE_ZOOM = None) ->
      assembleMosaic fetch bounds
      = Throws "Could not download any elevation data.").
Proof.
  intros Hx Hy. change 512 with TILE_SIZE.
  unfold assembleMosaic. cbv zeta. rewrite Hx, Hy. split.
  - intros (tx & ty & Htx & Hty & Hsome).
    rewrite decide_False.
    2:{ rewrite validTiles_nil. intros Hnone.
        rewrite (Hnone tx ty Htx Hty) in Hsome. by destruct Hsome. }
    eexists. split; [reflexivity|].
    assert (wellFormed (stitchMosaic bounds xa xb ya yb
              (validTiles fetch (tilesToFetch xa xb ya yb)))) as (_ & _ & Hlen)
      by (apply stitchMosaic_wellFormed; lia).
    do 3 (split; [done|]).
    intros tx' ty' r c Htx' Hty' Hr Hc. by apply assembled_sample.
  - intros Hnone. apply validTiles_nil in Hnone. by rewrite decide_True.
Qed.


Section BoxRun.
#[local] Existing Instance B64.Series.engine.

Lemma box_columns :
  forRange (lng2tile (west Samples.box) TILE_ZOOM) (lng2tile (east Samples.box) TILE_ZOOM)
  = Range 2929 2931.
Proof. reflexivity. Qed.

Lemma box_rows :
  forRange (lat2tile (north Samples.box) TILE_ZOOM) (lat2tile (south Samples.box) TILE_ZOOM)
  = Range 1898 1900.
Proof. reflexivity. Qed.

Lemma box_assembled :
  assembleMosaic Samples.oneTile Samples.box
  = Done (stitchMosaic Samples.box 2929 2931 1898 1900
            (validTiles Samples.oneTile (tilesToFetch 2929 2931 1898 1900))).
Proof.
  unfold assembleMosaic. cbv zeta. rewrite box_columns, box_rows.
  by rewrite decide_False.
Qed.

Lemma partial_tile_failure_is_tolerated_witness :
  (exists tx ty, 2929 <= tx <= 2931 /\ 1898 <= ty <= 1900
                 /\ is_Some (Samples.oneTile tx ty TILE_ZOOM))
  /\ (exists m : Mosaic float,
        assembleMosaic Samples.oneTile Samples.box = Done m
        /\ mosaicWidth m = 1536 /\ mosaicHeight m = 1536)
  /\ assembleMosaic Samples.noTile Samples.box
     = Throws "Could not download any elevation data.".
Proof.
  assert (exists tx ty, 2929 <= tx <= 2931 /\ 1898 <= ty <= 1900
                        /\ is_Some (Samples.oneTile tx ty TILE_ZOOM)) as Hone.
  { exists 2929, 1898. split; [lia|]. split; [lia|]. by eexists. }
  split; [exact Hone|].
  destruct (partial_tile_failure_is_tolerated Samples.oneTile Samples.box
              2929 2931 1898 1900 box_columns box_rows) as [Hsome _].
  destruct (partial_tile_failure_is_tolerated Samples.noTile Samples.box
              2929 2931 1898 1900 box_columns box_rows) as [_ Hnone].
  split.
  - destruct (Hsome Hone) as (m & Hm & HW & HH & _). exists m.
    split; [exact Hm|]. split; [rewrite HW|rewrite HH]; reflexivity.
  - apply Hnone. intros tx ty _ _. reflexivity.
Defined.


End BoxRun.

(** ** Clipping to the geometry *)


Lemma onLast_app {A} (f : A -> A) (l k : list A) :
  k <> [] -> onLast f (l ++ k) = l ++ onLast f k.
Proof.
  intros Hk. induction l as [|a l IH]; [done|].
  cbn [app onLast]. rewrite IH.
  destruct (l ++ k) eqn:Heq; [|done].
  apply app_eq_nil in Heq as [_ ->]. done.
Qed.

Section Canvas.
Context {num : Type} `{JSNumber num}.
Implicit Types (path : list (Subpath num)) (p : num * num).

Lemma pathWinding_app p path path' :
  pathWinding p (path ++ path') = pathWinding p path + pathWinding p path'.
Proof.
  unfold pathWinding. induction path as [|s path IH]; [done|].
  cbn. rewrite IH. lia.
Qed.

Lemma lineTo_app path s x y :
  exists s', lineTo (path ++ [s]) x y = path ++ [s'] /\ lineTo [s] x y = [s'].
Proof.
  unfold lineTo. destruct (isFinite x && isFinite y).
  - eexists. split; [|done].
    destruct (path ++ [s]) eqn:Heq; [by destruct path|].
    rewrite <- Heq. by rewrite onLast_app.
  - by exists s.
Qed.

Lemma lineTo_run_app (pts : list (num * num)) path s :
  exists s',
    foldl (fun path c => lineTo path c.1 c.2) (path ++ [s]) pts = path ++ [s']
    /\ foldl (fun path c => lineTo path c.1 c.2) [s] pts = [s'].
Proof.
  revert s. induction pts as [|c pts IH]; intros s; [by exists s|].
  cbn [foldl]. destruct (lineTo_app path s c.1 c.2) as (s1 & -> & ->). apply IH.
Qed.

Lemma closePath_app path s : closePath (path ++ [s]) = path ++ closePath [s].
Proof.
  unfold closePath. rewrite last_snoc. cbn [last].
  rewrite onLast_app by done. by rewrite <- app_assoc.
Qed.

(** A ring that starts on the canvas is appended to the path as it is drawn
    on an empty path. *)
Lemma drawRing_app (m : Mosaic num) path (ring : list (Position num)) :
  startsFinite m ring -> drawRing m path ring = path ++ drawRing m [] ring.
Proof.
  destruct ring as [|c0 rest]; [intros _; by rewrite app_nil_r|].
  cbn [startsFinite]. intros Hfin. unfold drawRing, moveTo. rewrite Hfin.
  cbn [app].
  set (pts := (fun c : Position num => (lngToX m c.1, latToY m c.2)) <$> rest).
  assert (forall path0,
            foldl (fun path c => lineTo path (lngToX m c.1) (latToY m c.2)) path0 rest
            = foldl (fun path c => lineTo path c.1 c.2) path0 pts) as Hpts.
  { intros path0. unfold pts. by rewrite foldl_fmap. }
  rewrite !Hpts.
  destruct (lineTo_run_app pts path
              {| points := [(lngToX m c0.1, latToY m c0.2)]; closed := false |})
    as (s' & -> & ->).
  apply closePath_app.
Qed.

Lemma drawRings_winding (m : Mosaic num) p path (rings : list (list (Position num))) :
  Forall (startsFinite m) rings ->
  pathWinding p (foldl (drawRing m) path rings)
  = pathWinding p path + foldr (fun ring acc => ringWinding m p ring + acc) 0 rings.
Proof.
  intros Hfin. revert path. induction Hfin as [|ring rings Hring _ IH]; intros path.
  - cbn [foldl foldr]. lia.
  - cbn [foldl foldr]. rewrite IH, drawRing_app, pathWinding_app by done.
    unfold ringWinding. lia.
Qed.



End Canvas.


Section DonutRun.
#[local] Existing Instance B64.Series.engine.



End DonutRun.

(** * Further properties of the code *)

(** ** Tile requests *)

Section Decimal.
Import WorldFile.
Local Open Scope string_scope.

Lemma string_app_cons (c : ascii) (s t : string) :
  String c s ++ t = String c (s ++ t).
Proof. done. Qed.

Lemma string_app_nil_r (s : string) : s ++ "" = s.
Proof. induction s as [|c s IH]; [done|]. by rewrite string_app_cons, IH. Qed.

Lemma string_app_assoc (s t u : string) : (s ++ t) ++ u = s ++ t ++ u.
Proof. induction s as [|c s IH]; [done|]. by rewrite !string_app_cons, IH. Qed.

Lemma string_app_length (s t : string) :
  String.length (s ++ t) = (String.length s + String.length t)%nat.
Proof.
  induction s as [|c s IH]; [done|]. rewrite string_app_cons. cbn. by rewrite IH.
Qed.

Lemma allChars_app test (s t : string) :
  allChars test (s ++ t) = allChars test s && allChars test t.
Proof. induction s as [|c s IH]; [done|]. simpl. by rewrite IH, andb_assoc. Qed.

Lemma allChars_impl (test test' : ascii -> bool) (s : string) :
  (forall c, test c = true -> test' c = true) ->
  allChars test s = true -> allChars test' s = true.
Proof.
  intros Himpl. induction s as [|c s IH]; [done|]. cbn.
  intros [Hc Hs]%andb_true_iff. by rewrite (Himpl c Hc), IH.
Qed.

Lemma readDecimal_app (s t : string) :
  readDecimal (s ++ t)
  = readDecimal s * 10 ^ Z.of_nat (String.length t) + readDecimal t.
Proof.
  induction s as [|c s IH].
  { change ("" ++ t) with t. cbn [readDecimal]. lia. }
  change (String c s ++ t) with (String c (s ++ t)).
  cbn [readDecimal String.length]. rewrite IH, string_app_length.
  rewrite Nat2Z.inj_add, Z.pow_add_r by lia. lia.
Qed.

Lemma digit_code (n : Z) :
  Z.of_nat (nat_of_ascii (ascii_of_nat (48 + Z.to_nat (n mod 10)))) = 48 + n mod 10.
Proof.
  assert (0 <= n mod 10 < 10) as Hd by (apply Z.mod_pos_bound; lia).
  rewrite nat_ascii_embedding by lia. lia.
Qed.

Lemma isDigit_digit (n : Z) :
  isDigit (ascii_of_nat (48 + Z.to_nat (n mod 10))) = true.
Proof.
  unfold isDigit. rewrite digit_code.
  assert (0 <= n mod 10 < 10) as Hd by (apply Z.mod_pos_bound; lia). lia.
Qed.

Lemma decimal_go_S (fuel : nat) (n : Z) (acc : string) :
  decimal_go (S fuel) n acc
  = if (n <? 10)%Z then String (ascii_of_nat (48 + Z.to_nat (n mod 10))) acc
    else decimal_go fuel (n / 10)
           (String (ascii_of_nat (48 + Z.to_nat (n mod 10))) acc).
Proof. done. Qed.

(** [decimal_go] puts the digits of [n] before the digits it has. *)
Lemma decimal_go_spec (fuel : nat) (n : Z) (acc : string) :
  0 <= n < 10 ^ Z.of_nat (S fuel) ->
  exists digits,
    decimal_go (S fuel) n acc = digits ++ acc
    /\ allChars isDigit digits = true
    /\ readDecimal digits = n
    /\ digits <> "".
Proof.
  revert n acc. induction fuel as [|fuel IH]; intros n acc Hn.
  - exists (String (ascii_of_nat (48 + Z.to_nat (n mod 10))) "").
    assert (n < 10) as Hlt by (change (10 ^ Z.of_nat 1) with 10 in Hn; lia).
    rewrite decimal_go_S. destruct (Z.ltb_spec n 10) as [_|]; [|lia].
    split; [done|]. split; [cbn [allChars]; by rewrite isDigit_digit|].
    split; [|done]. cbn [readDecimal String.length]. rewrite digit_code.
    rewrite Z.mod_small by lia. cbn. lia.
  - rewrite decimal_go_S. set (d := ascii_of_nat (48 + Z.to_nat (n mod 10))).
    destruct (Z.ltb_spec n 10) as [Hlt|Hge].
    + exists (String d "").
      split; [done|]. split; [cbn [allChars]; unfold d; by rewrite isDigit_digit|].
      split; [|done]. cbn [readDecimal String.length]. unfold d. rewrite digit_code.
      rewrite Z.mod_small by lia. cbn. lia.
    + destruct (IH (n / 10) (String d acc)) as (digits & Hgo & Hdig & Hval & Hne).
      { split; [apply Z.div_pos; lia|].
        apply Z.div_lt_upper_bound; [lia|].
        rewrite Nat2Z.inj_succ, Z.pow_succ_r in Hn by lia. lia. }
      exists (digits ++ String d "").
      split; [rewrite Hgo; by rewrite string_app_assoc|].
      split; [rewrite allChars_app, Hdig; cbn [allChars andb]; unfold d; by rewrite isDigit_digit|].
      split.
      * rewrite readDecimal_app, Hval. cbn [readDecimal String.length].
        unfold d. rewrite digit_code. cbn.
        pose proof (Z.div_mod n 10). lia.
      * destruct digits; done.
Qed.

Lemma decimal_spec (n : Z) :
  0 <= n ->
  allChars isDigit (decimal n) = true /\ readDecimal (decimal n) = n
  /\ decimal n <> "".
Proof.
  intros Hn. unfold decimal.
  destruct (decimal_go_spec (Z.to_nat (Z.log2 n)) n "") as (digits & -> & Hd & Hv & Hne).
  { split; [done|]. 
    rewrite Nat2Z.inj_succ, Z2Nat.id by apply Z.log2_nonneg.
    destruct (decide (n = 0)) as [->|Hpos]; [done|].
    pose proof (Z.log2_spec n ltac:(lia)) as [_ Hhi].
    eapply Z.lt_le_trans; [exact Hhi|].
    apply Z.pow_le_mono_l. lia. }
  rewrite string_app_nil_r. done.
Qed.

(** Reading back what a template literal prints for an integer. *)
Lemma readInteger_integerToString (n : Z) : readInteger (integerToString n) = n.
Proof.
  unfold integerToString. destruct (Z.ltb_spec n 0) as [Hneg|Hpos].
  - change ("-" ++ decimal (- n)) with (String "-" (decimal (- n))).
    cbn [readInteger]. destruct (decimal_spec (- n)) as (_ & -> & _); lia.
  - destruct (decimal_spec n Hpos) as (Hd & Hv & Hne).
    unfold readInteger. destruct (decimal n) as [|c rest]; [done|].
    assert (c <> "-"%char) as Hc.
    { intros ->. cbn in Hd. done. }
    destruct c as [[] [] [] [] [] [] [] []]; try done.
Qed.

End Decimal.

Section TileUrls.
Local Open Scope string_scope.

(** A text is cut in one way at the first occurrence of a separator. *)
Lemma split_at (sep : ascii) (s s' t t' : string) :
  allChars (otherThan sep) s = true -> allChars (otherThan sep) s' = true ->
  s ++ String sep t = s' ++ String sep t' -> s = s' /\ t = t'.
Proof.
  revert s'. induction s as [|c s IH]; intros [|c' s'] Hs Hs' Heq.
  - by injection Heq as ->.
  - rewrite string_app_cons in Heq. injection Heq as <- _.
    cbn in Hs'. unfold otherThan in Hs'. by rewrite Ascii.eqb_refl in Hs'.
  - rewrite string_app_cons in Heq. injection Heq as -> _.
    cbn in Hs. unfold otherThan in Hs. by rewrite Ascii.eqb_refl in Hs.
  - rewrite !string_app_cons in Heq. injection Heq as -> Heq.
    cbn in Hs, Hs'. apply andb_true_iff in Hs as [_ Hs], Hs' as [_ Hs'].
    destruct (IH s' Hs Hs' Heq) as [-> ->]. done.
Qed.

Lemma integerToString_chars (n : Z) :
  allChars isSignOrDigit (integerToString n) = true.
Proof.
  unfold integerToString. destruct (Z.ltb_spec n 0) as [Hneg|Hpos].
  - rewrite string_app_cons. cbn [allChars]. 
    destruct (decimal_spec (- n)) as (Hd & _); [lia|].
    change ("" ++ WorldFile.decimal (- n)) with (WorldFile.decimal (- n)).
    rewrite (allChars_impl isDigit isSignOrDigit); [done| |done].
    intros c Hc. unfold isSignOrDigit. by rewrite Hc.
  - destruct (decimal_spec n Hpos) as (Hd & _).
    apply (allChars_impl isDigit isSignOrDigit); [|done].
    intros c Hc. unfold isSignOrDigit. by rewrite Hc.
Qed.

Lemma integerToString_without (sep : ascii) (n : Z) :
  isSignOrDigit sep = false ->
  allChars (otherThan sep) (integerToString n) = true.
Proof.
  intros Hsep. apply (allChars_impl isSignOrDigit); [|apply integerToString_chars].
  intros c Hc. unfold otherThan. destruct (Ascii.eqb_spec c sep) as [->|]; [|done].
  by rewrite Hsep in Hc.
Qed.

Lemma integerToString_inj (n n' : Z) :
  integerToString n = integerToString n' -> n = n'.
Proof.
  intros Heq. apply (f_equal readInteger) in Heq.
  by rewrite !readInteger_integerToString in Heq.
Qed.

(** Tiles with one address are one tile. *)
Lemma AWS_TILE_URL_inj (x y z x' y' z' : Z) :
  AWS_TILE_URL x y z = AWS_TILE_URL x' y' z' -> x = x' /\ y = y' /\ z = z'.
Proof.
  unfold AWS_TILE_URL. intros Heq. apply (inj (String.append _)) in Heq.
  apply split_at in Heq as [Hz Heq]; [|by apply integerToString_without..].
  apply split_at in Heq as [Hx Heq]; [|by apply integerToString_without..].
  apply split_at in Heq as [Hy _]; [|by apply integerToString_without..].
  apply integerToString_inj in Hx, Hy, Hz. done.
Qed.

Lemma NoDup_tilesToFetch (xa xb ya yb : Z) : NoDup (tilesToFetch xa xb ya yb).
Proof.
  unfold tilesToFetch. apply NoDup_bind; [| |apply NoDup_seqZ].
  - intros x1 x2 [x y] _ _ Hin1 Hin2.
    apply list_elem_of_bind in Hin1 as (y1 & Hin1 & _).
    apply list_elem_of_bind in Hin2 as (y2 & Hin2 & _).
    apply list_elem_of_singleton in Hin1, Hin2. congruence.
  - intros x _. apply NoDup_bind; [| |apply NoDup_seqZ].
    + intros y1 y2 p _ _ Hin1 Hin2.
      apply list_elem_of_singleton in Hin1, Hin2. congruence.
    + intros y _. apply NoDup_singleton.
Qed.

Lemma length_pairs {A B} (ys : list A) (xs : list B) :
  length (pairs ys xs) = (length ys * length xs)%nat.
Proof.
  unfold pairs. induction ys as [|y ys IH]; [done|].
  cbn [mbind list_bind length]. rewrite length_app, IH.
  assert (length (xs ≫= λ x : B, [(y, x)]) = length xs) as ->; [|lia].
  clear IH. induction xs as [|x xs IHx]; [done|]. cbn. by rewrite IHx.
Qed.

Lemma length_tilesToFetch (xa xb ya yb : Z) :
  length (tilesToFetch xa xb ya yb)
  = (Z.to_nat (xb - xa + 1) * Z.to_nat (yb - ya + 1))%nat.
Proof.
  change (tilesToFetch xa xb ya yb)
    with (pairs (seqZ xa (xb - xa + 1)) (seqZ ya (yb - ya + 1))).
  by rewrite length_pairs, !length_seqZ.
Qed.

End TileUrls.

(** X1. The addresses [AWS_TILE_URL(t.x, t.y, t.z)] of the tiles of
    [tilesToFetch] are pairwise distinct, and there are
    [(xMax - xMin + 1) * (yMax - yMin + 1)] of them (none when a range is
    empty): an analysis asks for every tile of its range once and for no
    address twice.  Two tiles have one address only when they are one
    tile. *)
Theorem tile_requests_are_distinct (xa xb ya yb : Z) :
  let urls := (fun t : Z * Z => AWS_TILE_URL t.1 t.2 TILE_ZOOM)
                <$> tilesToFetch xa xb ya yb in
  NoDup urls
  /\ length urls = (Z.to_nat (xb - xa + 1) * Z.to_nat (yb - ya + 1))%nat
  /\ (forall x y z x' y' z' : Z,
        AWS_TILE_URL x y z = AWS_TILE_URL x' y' z' -> x = x' /\ y = y' /\ z = z').
Proof.
  cbv zeta. split; [|split].
  - apply NoDup_fmap_2_strong; [|apply NoDup_tilesToFetch].
    intros [x y] [x' y'] _ _ Heq. cbn [fst snd] in Heq.
    apply AWS_TILE_URL_inj in Heq as (-> & -> & _). done.
  - by rewrite length_fmap, length_tilesToFetch.
  - apply AWS_TILE_URL_inj.
Qed.

(** ** The result of the analysis *)


Section Result.
Context {num : Type} `{JSNumber num}.
Variable m : Mosaic num.
Local Abbreviation W := (mosaicWidth m).
Local Abbreviation Ht := (mosaicHeight m).



End Result.


Section BoxResult.
#[local] Existing Instance B64.Series.engine.

Lemma box_analysed (geoJson : list (Feature float)) :
  exists result : GeoData float,
    performTerrainAnalysis Samples.oneTile Samples.box geoJson = Done result.
Proof.
  unfold performTerrainAnalysis. rewrite box_assembled. by eexists.
Qed.


End BoxResult.

(** X3. The clipping loop draws the rings of the Polygon and MultiPolygon
    features and skips every other feature, so the filter of
    [handleFileSelect] changes nothing of the mask: the path drawn for the
    filtered features is the path drawn for all. *)
Theorem clipping_draws_the_polygon_features {num : Type} `{JSNumber num}
    (m : Mosaic num) (features : list (Feature num)) :
  clipPath m (Portal.polygonFeatures features) = clipPath m features
  /\ allRings (Portal.polygonFeatures features) = allRings features.
Proof.
  split.
  - unfold clipPath. generalize (@nil (Subpath num)).
    induction features as [|f fs IH]; intros path; [done|].
    cbn [Portal.polygonFeatures List.filter foldl].
    unfold Portal.polygonFeatures in IH.
    destruct (geometry f) as [[]|] eqn:Hg; cbn [foldl]; rewrite IH;
      unfold drawFeature; by rewrite Hg.
  - unfold allRings. induction features as [|f fs IH]; [done|].
    cbn [Portal.polygonFeatures List.filter mbind list_bind].
    unfold Portal.polygonFeatures in IH.
    destruct (geometry f) as [[]|] eqn:Hg; cbn [mbind list_bind]; rewrite IH;
      unfold ringsOf; by rewrite Hg.
Qed.

(** ** The pipeline in exact arithmetic *)

Section ExactMosaic.
Local Open Scope R_scope.











End ExactMosaic.



Section EquatorRun.
Local Open Scope R_scope.





End EquatorRun.





Section ExactGrid.
Local Open Scope R_scope.





End ExactGrid.









Section ExactRamp.
Local Open Scope R_scope.



End ExactRamp.


Section RampRun.
Local Open Scope R_scope.



End RampRun.


(** ** The KML of the drawn shapes *)

Section KmlFacts.
Context {num : Type} `{Portal.Collaborators num}.
Import Portal.

Lemma placemark_is_Some (kml : string) (i : nat) (f : Feature num) :
  is_Some (placemark kml i f) <-> exportable f = true.
Proof.
  unfold placemark, exportable. cbv zeta.
  destruct (geometry f) as [[c|cs|[|ring rings]|polys]|]; cbn;
    split; try done; try (by intros ?%is_Some_None); by eexists.
Qed.

Lemma placemarks_is_Some (kml : string) (i : nat) (features : list (Feature num)) :
  is_Some (placemarks kml i features)
  <-> Forall (fun f => exportable f = true) features.
Proof.
  revert kml i. induction features as [|f fs IH]; intros kml i.
  - split; [constructor|by eexists].
  - cbn [placemarks]. rewrite Forall_cons, <- (placemark_is_Some kml i f).
    destruct (placemark kml i f) as [kml'|]; cbn.
    + rewrite IH. split; [intros Hfs; split; [by eexists|done]|by intros [_ Hfs]].
    + split; [by intros ?%is_Some_None|by intros [?%is_Some_None _]].
Qed.
End KmlFacts.

Lemma placemark_outerRingOnly {num : Type} `{Portal.Collaborators num}
    (kml : string) (i : nat) (f : Feature num) :
  Portal.placemark kml i (outerRingOnly f) = Portal.placemark kml i f.
Proof.
  unfold Portal.placemark, outerRingOnly. cbv zeta.
  destruct (geometry f) as [[c|cs|[|ring rings]|polys]|] eqn:Hg;
    cbn [geometry]; rewrite ?Hg; done.
Qed.


Lemma exportable_false {num : Type} (f : Feature num) :
  exportable f = false
  <-> geometry f = None \/ geometry f = Some (Polygon []).
Proof.
  unfold exportable.
  destruct (geometry f) as [[c|cs|[|ring rings]|polys]|]; intuition congruence.
Qed.

(** X10. [generateKML] throws (a TypeError) exactly when a feature has no
    geometry or is a Polygon without rings; on every other list of
    features it returns a text. *)
Theorem generateKML_throws_only_without_geometry {num : Type}
    `{Portal.Collaborators num} (features : list (Feature num)) :
  Portal.generateKML features = None
  <-> exists f, f ∈ features
        /\ (geometry f = None \/ geometry f = Some (Polygon [])).
Proof.
  unfold Portal.generateKML.
  assert (Portal.placemarks Portal.kmlHeader 0 features = None
          <-> exists f, f ∈ features
                /\ (geometry f = None \/ geometry f = Some (Polygon []))) as <-.
  { generalize Portal.kmlHeader, 0%nat.
    induction features as [|f fs IH]; intros kml i.
    - split; [done|]. by intros (f & Hin%elem_of_nil & _).
    - cbn [Portal.placemarks].
      pose proof (placemark_is_Some kml i f) as Hf.
      destruct (Portal.placemark kml i f) as [kml'|]; cbn.
      + rewrite IH. split.
        * intros (f' & Hin & Hbad). exists f'. split; [by right|done].
        * intros (f' & Hin & Hbad). apply elem_of_cons in Hin as [->|Hin].
          -- apply exportable_false in Hbad.
             destruct Hf as [Hf _]. rewrite Hf in Hbad; [done|by eexists].
          -- by exists f'.
      + split; [|done]. intros _. exists f. split; [left|].
        apply exportable_false. destruct (exportable f); [|done].
        destruct Hf as [_ Hf]. by destruct Hf. }
  destruct (Portal.placemarks _ _ _) as [kml|]; cbn; done.
Qed.

(** X11. [generateKML] writes the first ring of a Polygon and nothing of
    a MultiPolygon: the text is the same when the other rings of every
    Polygon and the polygons of every MultiPolygon are taken away. *)
Theorem generateKML_writes_the_outer_ring_only {num : Type}
    `{Portal.Collaborators num} (features : list (Feature num)) :
  Portal.generateKML (outerRingOnly <$> features) = Portal.generateKML features.
Proof.
  unfold Portal.generateKML. f_equal.
  generalize Portal.kmlHeader, 0%nat.
  induction features as [|f fs IH]; intros kml i; [done|].
  cbn [fmap list_fmap Portal.placemarks]. rewrite placemark_outerRingOnly.
  destruct (Portal.placemark kml i f) as [kml'|]; cbn; [apply IH|done].
Qed.

(** ** The drawing tools *)

Section AppFacts.
Context {num : Type} `{JSNumber num} `{Portal.Collaborators num}.
Import Portal.
Implicit Types (app : App num) (bounds : Bounds num) (geoJson : list (Feature num)).

(** How the analysis ends, and the state it leaves. *)
Lemma performTerrainAnalysis_shown_cases bounds geoJson app :
  match performTerrainAnalysis_shown bounds geoJson app with
  | Ends app' =>
      exists result,
        performTerrainAnalysis fetchTile bounds geoJson = Done result
        /\ status app' = done /\ statusMessage app' = "Analysis Complete."%string
        /\ geoData app' = Some result /\ drawing app' = drawing app
  | Fails msg app' =>
      performTerrainAnalysis fetchTile bounds geoJson = Throws msg
      /\ status app' = status app
      /\ (exists n, tileCount bounds = Some n /\ statusMessage app' = fetching n)
      /\ geoData app' = geoData app /\ drawing app' = drawing app
  | Freezes =>
      tileCount bounds = None
      \/ performTerrainAnalysis fetchTile bounds geoJson = Hangs
  end.
Proof.
  unfold performTerrainAnalysis_shown. cbv zeta.
  destruct (tileCount bounds) as [n|]; [|by left].
  destruct (performTerrainAnalysis fetchTile bounds geoJson) as [result|msg|].
  - by exists result.
  - repeat split; try done. by exists n.
  - by right.
Qed.


Lemma closedRing_cons (first : LatLng num) (rest : list (LatLng num)) :
  closedRing (first :: rest)
  = (fun p => (lng p, lat p)) <$> ((first :: rest) ++ [first]).
Proof. done. Qed.

Lemma closedRing_closed (first : LatLng num) (rest : list (LatLng num)) :
  head (closedRing (first :: rest)) = last (closedRing (first :: rest))
  /\ length (closedRing (first :: rest)) = S (S (length rest)).
Proof.
  rewrite closedRing_cons. split.
  - rewrite fmap_app.
    change ((fun p : LatLng num => (lng p, lat p)) <$> [first])
      with [(lng first, lat first)].
    by rewrite last_snoc.
  - rewrite length_fmap, length_app. cbn. lia.
Qed.

(** The polygon tool on three points or more. *)
Lemma finishDrawing_polygon app first rest :
  drawMode app = Some polygon -> tempPoints app = first :: rest ->
  (2 <= length rest)%nat ->
  let feature := {| geometry := Some (Polygon [closedRing (first :: rest)]) |} in
  finishDrawing app
  = andThen (addDrawnFeature feature app) (fun app =>
    andThen (triggerAnalysisFromDraw feature app) (fun app =>
    Ends (leaveDrawing app))).
Proof.
  intros Hmode Hpoints Hlen feature. unfold finishDrawing. cbv zeta.
  rewrite Hmode, Hpoints. rewrite decide_False by (cbn; lia). done.
Qed.

(** The line tool on two points or more. *)
Lemma finishDrawing_line app first rest :
  drawMode app = Some line -> tempPoints app = first :: rest ->
  (1 <= length rest)%nat ->
  let feature := {| geometry := Some (LineString (position <$> first :: rest)) |} in
  finishDrawing app
  = andThen (addDrawnFeature feature app) (fun app => Ends (leaveDrawing app)).
Proof.
  intros Hmode Hpoints Hlen feature. unfold finishDrawing. cbv zeta.
  rewrite Hmode, Hpoints. rewrite decide_False by (cbn; lia). done.
Qed.

(** What [finishDrawing] does to the shapes: nothing, or one well-drawn
    shape more. *)
Lemma finishDrawing_shapes app :
  match finishDrawing app with
  | Ends app' | Fails _ app' =>
      drawnFeatures app' = drawnFeatures app
      \/ exists f, wellDrawn f /\ drawnFeatures app' = drawnFeatures app ++ [f]
  | Freezes => True
  end.
Proof.
  destruct (drawMode app) as [[]|] eqn:Hmode.
  - destruct (tempPoints app) as [|first rest] eqn:Hpoints.
    { unfold finishDrawing. rewrite Hmode, Hpoints. by left. }
    destruct (decide (length rest < 2)%nat) as [Hshort|Hlong].
    { unfold finishDrawing. cbv zeta. rewrite Hmode, Hpoints.
      rewrite decide_True by (cbn; lia). by left. }
    rewrite (finishDrawing_polygon app first rest) by (done || lia).
    set (feature := {| geometry := _ |}).
    assert (wellDrawn feature) as Hwell.
    { unfold wellDrawn, feature. cbn [geometry].
      destruct (closedRing_closed first rest) as [Hclosed ->]. split; [lia|done]. }
    unfold addDrawnFeature, triggerAnalysisFromDraw. cbv zeta.
    destruct (L_geoJSON [feature]) as [bounds|msg|]; cbn [await andThen]; [| |done].
    + destruct bounds as [bounds|]; [|right; by exists feature].
      pose proof (performTerrainAnalysis_shown_cases bounds [feature]
        (setStatus processing (setGeoData None
           (setDrawnFeatures (drawnFeatures app ++ [feature]) app)))) as Hshown.
      destruct (performTerrainAnalysis_shown _ _ _) as [app'|msg app'|]; [| |done].
      * destruct Hshown as (result & _ & _ & _ & _ & Hdraw). cbn [andThen].
        right. exists feature. split; [done|].
        injection Hdraw as _ _ Hf _. exact Hf.
      * destruct Hshown as (_ & _ & _ & _ & Hdraw). cbn [andThen].
        right. exists feature. split; [done|].
        injection Hdraw as _ _ Hf _. exact Hf.
    + right. by exists feature.
  - destruct (tempPoints app) as [|first rest] eqn:Hpoints.
    { unfold finishDrawing. rewrite Hmode, Hpoints. by left. }
    destruct (decide (length rest < 1)%nat) as [Hshort|Hlong].
    { unfold finishDrawing. cbv zeta. rewrite Hmode, Hpoints.
      rewrite decide_True by (cbn; lia). by left. }
    rewrite (finishDrawing_line app first rest) by (done || lia).
    set (feature := {| geometry := _ |}).
    assert (wellDrawn feature) as Hwell.
    { unfold wellDrawn, feature. cbn [geometry]. rewrite length_fmap. cbn. lia. }
    unfold addDrawnFeature. cbv zeta.
    destruct (L_geoJSON [feature]) as [bounds|msg|]; cbn [await andThen]; [| |done];
      right; by exists feature.
  - unfold finishDrawing. rewrite Hmode.
    destruct (tempPoints app); by left.
  - unfold finishDrawing. rewrite Hmode. by left.
Qed.

End AppFacts.

Section AppFacts2.
Context {num : Type} `{JSNumber num} `{Portal.Collaborators num}.
Import Portal.
Implicit Types (app : App num) (bounds : Bounds num) (geoJson : list (Feature num)).

(** How [triggerAnalysisFromDraw] ends when Leaflet takes the feature. *)
Lemma triggerAnalysisFromDraw_cases (feature : Feature num) app
    (bounds : option (Bounds num)) :
  L_geoJSON [feature] = Done bounds ->
  match triggerAnalysisFromDraw feature app with
  | Ends app' =>
      drawing app' = drawing app
      /\ match bounds with
         | None =>
             status app' = processing /\ geoData app' = None
             /\ statusMessage app' = "Calculating tile coverage..."%string
         | Some bounds =>
             match performTerrainAnalysis fetchTile bounds [feature] with
             | Done result =>
                 status app' = done /\ geoData app' = Some result
                 /\ statusMessage app' = "Analysis Complete."%string
             | Throws _ =>
                 status app' = processing /\ geoData app' = None
                 /\ exists n, tileCount bounds = Some n
                      /\ statusMessage app' = fetching n
             | Hangs => False
             end
         end
  | Fails _ _ => False
  | Freezes =>
      exists b, bounds = Some b
        /\ (tileCount b = None
            \/ performTerrainAnalysis fetchTile b [feature] = Hangs)
  end.
Proof.
  intros HL. unfold triggerAnalysisFromDraw. cbv zeta. rewrite HL. cbn [await].
  destruct bounds as [bounds|]; [|done].
  pose proof (performTerrainAnalysis_shown_cases bounds [feature]
                (setStatus processing (setGeoData None app))) as Hshown.
  destruct (performTerrainAnalysis_shown _ _ _) as [app'|msg app'|].
  - destruct Hshown as (result & -> & Hs & Hm & Hg & Hd). done.
  - destruct Hshown as (-> & Hs & Hm & Hg & Hd). done.
  - by exists bounds.
Qed.

End AppFacts2.

(** X12. [finishDrawing] with the polygon tool and three points or more
    (and a geometry Leaflet takes): the shape added to the drawn shapes is
    a Polygon of one ring, the positions [[lng, lat]] of the points in the
    order of the clicks and the first one again, so the ring is closed and
    has one position more than there were points; no alert is shown, the
    tool is left and the points are cleared; and the data kept is the
    result of the analysis of this one feature in Leaflet's box of it,
    none when that analysis throws.  No exception leaves the handler. *)
Theorem finished_polygon_is_a_closed_ring {num : Type} `{JSNumber num}
    `{Portal.Collaborators num} (app : Portal.App num)
    (first : Portal.LatLng num) (rest : list (Portal.LatLng num))
    (bounds : option (Bounds num)) :
  Portal.drawMode app = Some Portal.polygon ->
  Portal.tempPoints app = first :: rest -> (2 <= length rest)%nat ->
  let ring := position <$> (first :: rest) ++ [first] in
  let feature := {| geometry := Some (Polygon [ring]) |} in
  Portal.L_geoJSON [feature] = Done bounds ->
  head ring = last ring
  /\ length ring = S (length (Portal.tempPoints app))
  /\ match Portal.finishDrawing app with
     | Portal.Ends app' =>
         Portal.drawnFeatures app' = Portal.drawnFeatures app ++ [feature]
         /\ Portal.drawMode app' = None /\ Portal.tempPoints app' = []
         /\ Portal.alerts app' = Portal.alerts app
         /\ Portal.geoData app'
            = (b ← bounds;
               match performTerrainAnalysis Portal.fetchTile b [feature] with
               | Done result => Some result
               | _ => None
               end)
     | Portal.Fails _ _ => False
     | Portal.Freezes =>
         exists b, bounds = Some b
           /\ (Portal.tileCount b = None
               \/ performTerrainAnalysis Portal.fetchTile b [feature] = Hangs)
     end.
Proof.
  intros Hmode Hpoints Hlen ring feature HL.
  destruct (closedRing_closed first rest) as [Hclosed Hlength].
  split; [exact Hclosed|]. split; [rewrite Hpoints; exact Hlength|].
  rewrite (finishDrawing_polygon app first rest) by done.
  change {| geometry := Some (Polygon [closedRing (first :: rest)]) |} with feature.
  unfold Portal.addDrawnFeature. cbv zeta. rewrite HL. cbn [Portal.await Portal.andThen].
  pose proof (triggerAnalysisFromDraw_cases feature
    (Portal.setDrawnFeatures (Portal.drawnFeatures app ++ [feature]) app) bounds HL)
    as Hcases.
  destruct (Portal.triggerAnalysisFromDraw _ _) as [app'|msg app'|];
    cbn [Portal.andThen]; [|done|done].
  destruct Hcases as [Hdraw Hrun]. injection Hdraw as _ _ Hf Ha.
  cbn [Portal.leaveDrawing Portal.setTempPoints Portal.setDrawMode
       Portal.drawnFeatures Portal.drawMode Portal.tempPoints Portal.alerts
       Portal.geoData].
  split; [exact Hf|]. split; [done|]. split; [done|]. split; [exact Ha|].
  destruct bounds as [b|]; cbn; [|by destruct Hrun as (_ & -> & _)].
  destruct (performTerrainAnalysis Portal.fetchTile b [feature]);
    [by destruct Hrun as (_ & -> & _)..|done].
Qed.

Section PolygonRun.
#[local] Existing Instance B64.Series.engine.
#[local] Existing Instance Cases.served.

Lemma finished_polygon_is_a_closed_ring_witness :
  let ring := position <$> Cases.corners ++ take 1 Cases.corners in
  head ring = last ring /\ length ring = 4%nat.
Proof.
  destruct (finished_polygon_is_a_closed_ring
              (Cases.sketch Portal.polygon Cases.corners)
              Cases.southWest [Cases.southEast; Cases.northWest]
              (Some Samples.box))
    as (Hclosed & Hlen & _); [reflexivity|reflexivity|cbn; lia|reflexivity|].
  exact (conj Hclosed Hlen).
Defined.

End PolygonRun.

(** X18. When the analysis of a drawn polygon throws (no tile could be
    downloaded), nothing catches it: [finishDrawing] ends, the status
    stays ['processing'] with the text of the download step, and there is
    no data; the shape stays among the drawn shapes. *)
Theorem drawn_polygon_failure_stays_processing {num : Type} `{JSNumber num}
    `{Portal.Collaborators num} (app : Portal.App num)
    (first : Portal.LatLng num) (rest : list (Portal.LatLng num))
    (bounds : Bounds num) (msg : string) :
  Portal.drawMode app = Some Portal.polygon ->
  Portal.tempPoints app = first :: rest -> (2 <= length rest)%nat ->
  let feature :=
    {| geometry := Some (Polygon [position <$> (first :: rest) ++ [first]]) |} in
  Portal.L_geoJSON [feature] = Done (Some bounds) ->
  performTerrainAnalysis Portal.fetchTile bounds [feature] = Throws msg ->
  exists (app' : Portal.App num) (n : nat),
    Portal.finishDrawing app = Portal.Ends app'
    /\ Portal.status app' = Portal.processing
    /\ Portal.tileCount bounds = Some n
    /\ Portal.statusMessage app' = fetching n
    /\ Portal.geoData app' = None
    /\ Portal.drawnFeatures app' = Portal.drawnFeatures app ++ [feature].
Proof.
  intros Hmode Hpoints Hlen feature HL Hthrows.
  rewrite (finishDrawing_polygon app first rest) by done.
  change {| geometry := Some (Polygon [closedRing (first :: rest)]) |} with feature.
  unfold Portal.addDrawnFeature. cbv zeta. rewrite HL. cbn [Portal.await Portal.andThen].
  pose proof (triggerAnalysisFromDraw_cases feature
    (Portal.setDrawnFeatures (Portal.drawnFeatures app ++ [feature]) app)
    (Some bounds) HL) as Hcases.
  destruct (Portal.triggerAnalysisFromDraw _ _) as [app'|msg' app'|];
    cbn [Portal.andThen].
  - destruct Hcases as [Hdraw Hrun]. rewrite Hthrows in Hrun.
    destruct Hrun as (Hs & Hg & n & Hn & Hm). injection Hdraw as _ _ Hf _.
    exists (Portal.leaveDrawing app'), n. done.
  - done.
  - destruct Hcases as (b & [= <-] & [Hnone | Hhangs]).
    + unfold performTerrainAnalysis, assembleMosaic in Hthrows.
      unfold Portal.tileCount in Hnone. cbv zeta in Hthrows, Hnone.
      destruct (forRange (lng2tile _ _) _); [done| |done].
      destruct (forRange (lat2tile _ _) _); done.
    + by rewrite Hthrows in Hhangs.
Qed.

Section UnservedRun.
#[local] Existing Instance B64.Series.engine.
#[local] Existing Instance Cases.unserved.

Lemma box_unserved (geoJson : list (Feature float)) :
  performTerrainAnalysis Samples.noTile Samples.box geoJson
  = Throws "Could not download any elevation data.".
Proof.
  unfold performTerrainAnalysis, assembleMosaic. cbv zeta.
  rewrite box_columns, box_rows. by rewrite decide_True.
Qed.

Lemma drawn_polygon_failure_stays_processing_witness :
  exists (app' : Portal.App float) (n : nat),
    Portal.finishDrawing (Cases.sketch Portal.polygon Cases.corners)
    = Portal.Ends app'
    /\ Portal.status app' = Portal.processing
    /\ Portal.statusMessage app' = fetching n
    /\ Portal.geoData app' = None.
Proof.
  destruct (drawn_polygon_failure_stays_processing
              (Cases.sketch Portal.polygon Cases.corners)
              Cases.southWest [Cases.southEast; Cases.northWest]
              Samples.box "Could not download any elevation data.")
    as (app' & n & Hends & Hstatus & _ & Hmessage & Hdata & _);
    [reflexivity|reflexivity|cbn; lia|reflexivity|apply box_unserved|].
  exists app', n. exact (conj Hends (conj Hstatus (conj Hmessage Hdata))).
Defined.

End UnservedRun.

(** X13. [finishDrawing] with fewer than three points for a polygon, fewer
    than two for a line, with the point tool or with no tool: no shape is
    added, the status, its text and the data stay as they are, the tool is
    left and the points are cleared.  An alert, "Polygon needs at least 3
    points.", is shown for a polygon of one or two points and in no other
    case. *)
Theorem short_drawings_are_dropped {num : Type} `{JSNumber num}
    `{Portal.Collaborators num} (app : Portal.App num) :
  match Portal.drawMode app with
  | Some Portal.polygon => (length (Portal.tempPoints app) < 3)%nat
  | Some Portal.line => (length (Portal.tempPoints app) < 2)%nat
  | _ => True
  end ->
  exists app' : Portal.App num,
    Portal.finishDrawing app = Portal.Ends app'
    /\ Portal.drawnFeatures app' = Portal.drawnFeatures app
    /\ Portal.drawMode app' = None /\ Portal.tempPoints app' = []
    /\ Portal.status app' = Portal.status app
    /\ Portal.statusMessage app' = Portal.statusMessage app
    /\ Portal.geoData app' = Portal.geoData app
    /\ Portal.alerts app'
       = match Portal.drawMode app, Portal.tempPoints app with
         | Some Portal.polygon, _ :: _ =>
             Portal.alerts app ++ ["Polygon needs at least 3 points."%string]
         | _, _ => Portal.alerts app
         end.
Proof.
  intros Hshort. unfold Portal.finishDrawing. cbv zeta.
  destruct (Portal.drawMode app) as [[]|];
    destruct (Portal.tempPoints app) as [|first rest];
    try rewrite decide_True by done; by eexists.
Qed.

Section ShortRun.
#[local] Existing Instance B64.Series.engine.
#[local] Existing Instance Cases.served.

Lemma short_drawings_are_dropped_witness :
  exists app' : Portal.App float,
    Portal.finishDrawing (Cases.sketch Portal.polygon (take 2 Cases.corners))
    = Portal.Ends app'
    /\ Portal.drawnFeatures app' = []
    /\ Portal.alerts app' = ["Polygon needs at least 3 points."%string].
Proof.
  destruct (short_drawings_are_dropped
              (Cases.sketch Portal.polygon (take 2 Cases.corners)))
    as (app' & Hends & Hshapes & _ & _ & _ & _ & _ & Halerts); [cbn; lia|].
  exists app'. exact (conj Hends (conj Hshapes Halerts)).
Defined.

End ShortRun.

Section Invariants.
Context {num : Type} `{JSNumber num} `{Portal.Collaborators num}.
Import Portal.
Implicit Types (app : App num).

Lemma addDrawnFeature_cases (feature : Feature num) app :
  match addDrawnFeature feature app with
  | Ends app' | Fails _ app' =>
      app' = setDrawnFeatures (drawnFeatures app ++ [feature]) app
  | Freezes => True
  end.
Proof. unfold addDrawnFeature. cbv zeta. by destruct (L_geoJSON [feature]). Qed.

(** What a handler does to the shapes: it keeps them, clears them, or adds
    one well-drawn shape. *)
Lemma handle_shapes (e : Event num) app :
  match handle e app with
  | Ends app' | Fails _ app' =>
      drawnFeatures app' = drawnFeatures app
      \/ drawnFeatures app' = []
      \/ exists f, wellDrawn f /\ drawnFeatures app' = drawnFeatures app ++ [f]
  | Freezes => True
  end.
Proof.
  destruct e as [latlng| | |mode| |file]; cbn [handle].
  - unfold onClick. destruct (drawMode app) as [[]|]; [by left|by left| |by left].
    set (feature := {| geometry := _ |}).
    pose proof (addDrawnFeature_cases feature app) as Hadd.
    destruct (addDrawnFeature feature app) as [app'|msg app'|]; cbn [andThen];
      [| |done]; subst app'; right; right; by exists feature.
  - pose proof (finishDrawing_shapes app) as Hfin.
    destruct (finishDrawing app); [| |done]; destruct Hfin; auto.
  - pose proof (finishDrawing_shapes app) as Hfin.
    destruct (finishDrawing app); [| |done]; destruct Hfin; auto.
  - by left.
  - by left.
  - unfold handleFileSelect. destruct file as [file|]; [|by left]. cbv zeta.
    set (app0 := setGeoData None _).
    assert (drawnFeatures app0 = []) as Hclear by done.
    destruct (parseKmlFile file) as [kmlText|msg|]; cbn [await]; [|by right; left|done].
    destruct (parseKmlTextToGeoJson kmlText) as [[features|]|msg|]; cbn [await];
      [| by right; left..|done].
    case_decide; [by right; left|].
    destruct (L_geoJSON _) as [[bounds|]|msg|]; cbn [await]; [|by right; left..|done].
    pose proof (performTerrainAnalysis_shown_cases bounds (polygonFeatures features) app0)
      as Hshown.
    destruct (performTerrainAnalysis_shown _ _ _) as [app'|msg app'|]; [| |done].
    + destruct Hshown as (result & _ & _ & _ & _ & Hd). injection Hd as _ _ Hf _.
      right; left. by rewrite Hf.
    + destruct Hshown as (_ & _ & _ & _ & Hd). injection Hd as _ _ Hf _.
      right; left. cbn. by rewrite Hf.
Qed.

Lemma reachable_wellDrawn app :
  reachable app -> Forall wellDrawn (drawnFeatures app).
Proof.
  induction 1 as [|e app app' _ IH Hstep|e app msg app' _ IH Hstep]; [constructor| |].
  - pose proof (handle_shapes e app) as Hshapes. rewrite Hstep in Hshapes.
    destruct Hshapes as [-> | [-> | (f & Hf & ->)]]; [done|constructor|].
    apply Forall_app. split; [done|by constructor].
  - pose proof (handle_shapes e app) as Hshapes. rewrite Hstep in Hshapes.
    destruct Hshapes as [-> | [-> | (f & Hf & ->)]]; [done|constructor|].
    apply Forall_app. split; [done|by constructor].
Qed.

Lemma wellDrawn_exportable (f : Feature num) : wellDrawn f -> exportable f = true.
Proof.
  unfold wellDrawn, exportable.
  by destruct (geometry f) as [[c|cs|[|ring rings]|polys]|].
Qed.

End Invariants.

(** X14. After any sequence of clicks, tool choices, cancels and uploads,
    each handled when the one before has settled, every drawn shape is a
    Point, a LineString of two positions or more, or a Polygon of exactly
    one ring that has four positions or more and ends where it starts. *)
Theorem drawn_features_are_well_formed {num : Type} `{JSNumber num}
    `{Portal.Collaborators num} (app : Portal.App num) :
  Portal.reachable app ->
  forall f, f ∈ Portal.drawnFeatures app ->
    match geometry f with
    | Some (Point _) => True
    | Some (LineString coords) => (2 <= length coords)%nat
    | Some (Polygon [ring]) => (4 <= length ring)%nat /\ head ring = last ring
    | _ => False
    end.
Proof.
  intros Hreach f Hin. apply reachable_wellDrawn in Hreach.
  rewrite Forall_forall in Hreach. by apply Hreach.
Qed.

Section PointRun.
#[local] Existing Instance B64.Series.engine.
#[local] Existing Instance Cases.served.

(** A point drawn on the untouched component. *)
Lemma point_drawn :
  Portal.reachable
    (Portal.setDrawMode None
       (Portal.setDrawnFeatures [ {| geometry := Some (Point (position Cases.southWest)) |} ]
          (Portal.setDrawMode (Some Portal.point) Portal.initial))).
Proof.
  eapply (Portal.reachable_ends (Portal.click Cases.southWest)).
  - eapply (Portal.reachable_ends (Portal.tool Portal.point)); [constructor|reflexivity].
  - reflexivity.
Qed.

Lemma drawn_features_are_well_formed_witness :
  exists app : Portal.App float,
    Portal.reachable app
    /\ Portal.drawnFeatures app
       = [ {| geometry := Some (Point (position Cases.southWest)) |} ]
    /\ forall f, f ∈ Portal.drawnFeatures app -> geometry f <> None.
Proof.
  eexists. split; [exact point_drawn|]. split; [reflexivity|].
  intros f Hin Hnone.
  pose proof (drawn_features_are_well_formed _ point_drawn f Hin) as Hwell.
  rewrite Hnone in Hwell. exact Hwell.
Defined.

End PointRun.

(** X15. After any sequence of clicks, tool choices, cancels and uploads,
    each handled when the one before has settled, [generateKML] returns a
    text for the drawn shapes: the download of the drawn shapes does not
    throw. *)
Theorem drawn_shapes_always_export {num : Type} `{JSNumber num}
    `{Portal.Collaborators num} (app : Portal.App num) :
  Portal.reachable app ->
  exists kml : string, Portal.generateKML (Portal.drawnFeatures app) = Some kml.
Proof.
  intros Hreach%reachable_wellDrawn. unfold Portal.generateKML.
  destruct (placemarks_is_Some Portal.kmlHeader 0 (Portal.drawnFeatures app))
    as [_ [kml Hkml]].
  { eapply Forall_impl; [exact Hreach|]. apply wellDrawn_exportable. }
  rewrite Hkml. by eexists.
Qed.

Section ExportRun.
#[local] Existing Instance B64.Series.engine.
#[local] Existing Instance Cases.served.

Lemma drawn_shapes_always_export_witness :
  exists (app : Portal.App float) (kml : string),
    Portal.reachable app
    /\ Portal.drawnFeatures app
       = [ {| geometry := Some (Point (position Cases.southWest)) |} ]
    /\ Portal.generateKML (Portal.drawnFeatures app) = Some kml.
Proof.
  destruct (drawn_shapes_always_export _ point_drawn) as [kml Hkml].
  eexists. exists kml. split; [exact point_drawn|]. split; [reflexivity|exact Hkml].
Defined.

End ExportRun.

(** ** The status *)

Section Status.
Context {num : Type} `{JSNumber num} `{Portal.Collaborators num}.
Import Portal.
Implicit Types (app : App num).

Lemma handle_ready (e : Event num) app :
  ready app ->
  match handle e app with
  | Ends app' | Fails _ app' => ready app'
  | Freezes => True
  end.
Proof.
  intros Hready.
  assert (forall app', status app' = status app -> geoData app' = geoData app ->
            ready app') as Hsame.
  { intros app' Hs Hg. unfold ready. by rewrite Hs, Hg. }
  assert (match finishDrawing app with
          | Ends app' | Fails _ app' => ready app'
          | Freezes => True
          end) as Hfinish.
  { destruct (drawMode app) as [[]|] eqn:Hmode.
    - destruct (tempPoints app) as [|first rest] eqn:Hpoints.
      { unfold finishDrawing. rewrite Hmode, Hpoints. by apply Hsame. }
      destruct (decide (length rest < 2)%nat) as [Hshort|Hlong].
      { unfold finishDrawing. cbv zeta. rewrite Hmode, Hpoints.
        rewrite decide_True by (cbn; lia). by apply Hsame. }
      rewrite (finishDrawing_polygon app first rest) by (done || lia).
      set (feature := {| geometry := _ |}).
      unfold addDrawnFeature. cbv zeta.
      destruct (L_geoJSON [feature]) as [bounds|msg|] eqn:HL; cbn [await andThen];
        [|by apply Hsame|done].
      pose proof (triggerAnalysisFromDraw_cases feature
        (setDrawnFeatures (drawnFeatures app ++ [feature]) app) bounds HL) as Hcases.
      destruct (triggerAnalysisFromDraw _ _) as [app'|msg app'|]; cbn [andThen];
        [|done|done].
      destruct Hcases as [_ Hrun]. unfold ready. cbn.
      destruct bounds as [b|].
      + destruct (performTerrainAnalysis fetchTile b [feature]); [| |done].
        * destruct Hrun as (_ & -> & _). by eexists.
        * destruct Hrun as (-> & _). done.
      + destruct Hrun as (-> & _). done.
    - destruct (tempPoints app) as [|first rest] eqn:Hpoints.
      { unfold finishDrawing. rewrite Hmode, Hpoints. by apply Hsame. }
      destruct (decide (length rest < 1)%nat) as [Hshort|Hlong].
      { unfold finishDrawing. cbv zeta. rewrite Hmode, Hpoints.
        rewrite decide_True by (cbn; lia). by apply Hsame. }
      rewrite (finishDrawing_line app first rest) by (done || lia).
      set (feature := {| geometry := _ |}).
      unfold addDrawnFeature. cbv zeta.
      destruct (L_geoJSON [feature]); cbn [await andThen]; [| |done]; by apply Hsame.
    - unfold finishDrawing. rewrite Hmode. destruct (tempPoints app); by apply Hsame.
    - unfold finishDrawing. rewrite Hmode. by apply Hsame. }
  destruct e as [latlng| | |mode| |file]; cbn [handle]; try done.
  - unfold onClick. destruct (drawMode app) as [[]|]; try by apply Hsame.
    unfold addDrawnFeature. cbv zeta.
    destruct (L_geoJSON _); cbn [await andThen]; [| |done]; by apply Hsame.
  - unfold handleFileSelect. destruct file as [file|]; [|done]. cbv zeta.
    set (app0 := setGeoData None _).
    assert (forall msg, ready (setStatusMessage ("Error: " ++ msg) (setStatus error app0)))
      as Herror by done.
    destruct (parseKmlFile file) as [kmlText|msg|]; cbn [await]; [|done|done].
    destruct (parseKmlTextToGeoJson kmlText) as [[features|]|msg|]; cbn [await];
      [|done..].
    case_decide; [done|].
    destruct (L_geoJSON _) as [[bounds|]|msg|]; cbn [await]; [|done..].
    pose proof (performTerrainAnalysis_shown_cases bounds (polygonFeatures features) app0)
      as Hshown.
    destruct (performTerrainAnalysis_shown _ _ _) as [app'|msg app'|]; [|done|done].
    destruct Hshown as (result & _ & _ & _ & Hg & _). unfold ready. rewrite Hg. by eexists.
Qed.

End Status.

(** X16. After any sequence of clicks, tool choices, cancels and uploads,
    each handled when the one before has settled, a status ['done'] (the
    download button is shown) comes with data to download: [geoData] is
    not null. *)
Theorem done_status_has_data {num : Type} `{JSNumber num}
    `{Portal.Collaborators num} (app : Portal.App num) :
  Portal.reachable app ->
  Portal.status app = Portal.done ->
  exists result : GeoData num, Portal.geoData app = Some result.
Proof.
  intros Hreach.
  assert (ready app) as Hready; [|exact Hready].
  induction Hreach as [|e app app' _ IH Hstep|e app msg app' _ IH Hstep]; [done| |].
  - pose proof (handle_ready e app IH) as Hr. by rewrite Hstep in Hr.
  - pose proof (handle_ready e app IH) as Hr. by rewrite Hstep in Hr.
Qed.

Section UploadRun.
#[local] Existing Instance B64.Series.engine.
#[local] Existing Instance Cases.served.

Lemma box_tileCount : Portal.tileCount Samples.box = Some 9%nat.
Proof. unfold Portal.tileCount. cbv zeta. by rewrite box_columns, box_rows. Qed.

(** The upload of [Cases.upload] on the untouched component ends with
    status ['done']. *)
Lemma upload_done :
  exists app' : Portal.App float,
    Portal.handleFileSelect (Some Cases.upload) Portal.initial = Portal.Ends app'
    /\ Portal.status app' = Portal.done.
Proof.
  unfold Portal.handleFileSelect. cbv zeta.
  set (app0 := Portal.setGeoData None _).
  change (Portal.parseKmlFile Cases.upload) with (Done "<kml></kml>"%string).
  cbn [Portal.await].
  change (Portal.parseKmlTextToGeoJson "<kml></kml>") with (Done (Some [Cases.plot])).
  cbn [Portal.await].
  change (Portal.polygonFeatures [Cases.plot]) with [Cases.plot].
  rewrite decide_False by done.
  change (Portal.L_geoJSON [Cases.plot]) with (Done (Some Samples.box)).
  cbn [Portal.await].
  pose proof (performTerrainAnalysis_shown_cases Samples.box [Cases.plot] app0) as Hshown.
  destruct (box_analysed [Cases.plot]) as [result Hrun].
  change Portal.fetchTile with Samples.oneTile in Hshown.
  destruct (Portal.performTerrainAnalysis_shown _ _ _) as [app'|msg app'|].
  - destruct Hshown as (_ & _ & Hs & _). exists app'. split; [reflexivity|exact Hs].
  - destruct Hshown as (Hthrows & _). rewrite Hrun in Hthrows. discriminate Hthrows.
  - destruct Hshown as [Hnone | Hhangs].
    + rewrite box_tileCount in Hnone. discriminate Hnone.
    + rewrite Hrun in Hhangs. discriminate Hhangs.
Qed.

Lemma done_status_has_data_witness :
  exists (app : Portal.App float) (result : GeoData float),
    Portal.reachable app /\ Portal.status app = Portal.done
    /\ Portal.geoData app = Some result.
Proof.
  destruct upload_done as (app & Hends & Hstatus).
  assert (Portal.reachable app) as Hreach.
  { apply (Portal.reachable_ends (Portal.change (Some Cases.upload)) Portal.initial);
      [constructor|exact Hends]. }
  destruct (done_status_has_data app Hreach Hstatus) as [result Hdata].
  exists app, result. exact (conj Hreach (conj Hstatus Hdata)).
Defined.

End UploadRun.


(** ** The numbers of the world file *)

Section FixedFacts.
Import WorldFile.
Local Open Scope string_scope.

Lemma substring_split (s : string) (a : nat) :
  (a <= String.length s)%nat ->
  substring 0 a s ++ substring a (String.length s - a) s = s.
Proof.
  revert a. induction s as [|c s IH]; intros a Ha.
  - destruct a; [done|cbn in Ha; lia].
  - destruct a as [|a].
    + change (substring 0 0 (String c s)) with "".
      change ("" ++ substring 0 (String.length (String c s) - 0) (String c s))
        with (substring 0 (String.length (String c s) - 0) (String c s)).
      rewrite Nat.sub_0_r. clear. induction (String c s) as [|c' s' IH']; [done|].
      cbn [String.length substring]. by rewrite IH'.
    + cbn [substring String.length Nat.sub]. rewrite string_app_cons. f_equal.
      apply IH. cbn in Ha. lia.
Qed.

Lemma substring_length (s : string) (a b : nat) :
  (a + b <= String.length s)%nat -> String.length (substring a b s) = b.
Proof.
  revert a b. induction s as [|c s IH]; intros a b Hab.
  - cbn in Hab. assert (a = 0 /\ b = 0)%nat as [-> ->] by lia. done.
  - destruct a as [|a], b as [|b]; cbn [substring String.length]; try done.
    + f_equal. apply IH. cbn in Hab. lia.
    + apply IH. cbn in Hab. lia.
    + apply IH. cbn in Hab. lia.
Qed.

Lemma allChars_substring test (s : string) (a b : nat) :
  allChars test s = true -> allChars test (substring a b s) = true.
Proof.
  revert a b. induction s as [|c s IH]; intros a b Hs.
  - by destruct a, b.
  - cbn in Hs. apply andb_true_iff in Hs as [Hc Hs].
    destruct a as [|a], b as [|b]; cbn [substring allChars];
      [done | rewrite Hc; by apply IH | by apply IH | by apply IH].
Qed.

Lemma zeros_spec (k : nat) :
  allChars isDigit (zeros k) = true /\ readDecimal (zeros k) = 0
  /\ String.length (zeros k) = k.
Proof.
  induction k as [|k (Hd & Hv & Hl)]; [done|].
  cbn [zeros allChars readDecimal String.length]. rewrite Hd, Hv, Hl.
  split; [done|]. split; [|done].
  change (Z.of_nat (nat_of_ascii "0")) with 48. lia.
Qed.

(** A number with a point before its last [fd] digits. *)
Lemma pointed_spec (fd : nat) (n : Z) :
  (0 < fd)%nat -> 0 <= n ->
  exists whole fraction,
    pointed fd n = whole ++ "." ++ fraction
    /\ whole <> "" /\ allChars isDigit whole = true
    /\ String.length fraction = fd /\ allChars isDigit fraction = true
    /\ readDecimal (whole ++ fraction) = n.
Proof.
  intros Hfd Hn. unfold pointed. rewrite decide_False by lia. cbv zeta.
  destruct (decimal_spec n Hn) as (Hd & Hv & Hne).
  destruct (zeros_spec (S fd - String.length (decimal n))) as (Hzd & Hzv & Hzl).
  set (m := zeros _ ++ decimal n) in *.
  assert (allChars isDigit m = true) as Hm by (unfold m; by rewrite allChars_app, Hzd, Hd).
  assert (readDecimal m = n) as Hmv by (unfold m; rewrite readDecimal_app, Hzv, Hv; lia).
  assert (S fd <= String.length m)%nat as Hlen.
  { unfold m. rewrite string_app_length, Hzl. lia. }
  set (k := String.length m) in *.
  exists (substring 0 (k - fd) m), (substring (k - fd) fd m).
  split; [done|].
  assert (substring 0 (k - fd) m ++ substring (k - fd) fd m = m) as Hsplit.
  { pose proof (substring_split m (k - fd)) as Hsp. fold k in Hsp.
    replace (k - (k - fd))%nat with fd in Hsp by lia. apply Hsp. lia. }
  split.
  { intros Hempty. apply (f_equal String.length) in Hempty.
    rewrite substring_length in Hempty by (fold k; lia). cbn in Hempty. lia. }
  split; [by apply allChars_substring|].
  split; [apply substring_length; fold k; lia|].
  split; [by apply allChars_substring|]. by rewrite Hsplit.
Qed.

End FixedFacts.

(** X19.  A finite number of the world file is written by [toFixed(12)] as
    an optional minus sign, one digit or more, a point and twelve digits;
    the digits, read without the point, are the integer nearest to the
    magnitude of the number times [10^12]. *)
Theorem world_file_numbers_have_twelve_decimals (x : float) (s : string) :
  B64.finite x = true -> WorldFile.toFixed x 12 = Some s ->
  exists sign whole fraction : string,
    s = (sign ++ whole ++ "." ++ fraction)%string
    /\ (sign = ""%string \/ sign = "-"%string)
    /\ whole <> ""%string /\ allChars isDigit whole = true
    /\ String.length fraction = 12%nat /\ allChars isDigit fraction = true
    /\ nearestScaled x 12 (readDecimal (whole ++ fraction)).
Proof.
  unfold B64.finite, WorldFile.toFixed, nearestScaled.
  destruct (Prim2SF x) as [sg|sg| |sg m e]; try done; intros _ Hs.
  - injection Hs as <-.
    destruct (pointed_spec 12 0) as (whole & fraction & -> & Hrest); [lia..|].
    exists ""%string, whole, fraction. split; [done|]. split; [by left|]. done.
  - cbv zeta in Hs.
    set (scale := 10 ^ Z.of_nat 12) in *.
    assert (0 < scale) as Hscale by (unfold scale; lia).
    assert (exists n, s = ((if sg then "-" else "") ++ WorldFile.pointed 12 n)%string
              /\ 0 <= n
              /\ if (0 <=? e)%Z then n = Zpos m * 2 ^ e * scale
                 else 2 * Z.abs (n * 2 ^ (- e) - Zpos m * scale) <= 2 ^ (- e))
      as (n & -> & Hn & Hnear).
    { destruct (Z.leb_spec 0 e) as [He|He].
      - destruct (_ <? _) in Hs; [|done]. injection Hs as <-.
        eexists. split; [done|]. split; [|done].
        assert (0 < 2 ^ e) by (apply Z.pow_pos_nonneg; lia). nia.
      - destruct (_ <? _) in Hs; [|done]. injection Hs as <-.
        eexists. split; [done|].
        assert (0 < 2 ^ (- e)) as HD by (apply Z.pow_pos_nonneg; lia).
        assert (2 ^ (1 - e) = 2 * 2 ^ (- e)) as ->.
        { replace (1 - e) with (Z.succ (- e)) by lia. apply Z.pow_succ_r. lia. }
        set (D := 2 ^ (- e)) in *. set (N := 2 * Zpos m * scale + D).
        pose proof (Z.div_mod N (2 * D) ltac:(lia)) as Hdm.
        pose proof (Z.mod_pos_bound N (2 * D) ltac:(lia)) as Hmod.
        split; [apply Z.div_pos; unfold N; nia|].
        unfold N in *. lia. }
    destruct (pointed_spec 12 n) as (whole & fraction & -> & Hw & Hwd & Hf & Hfd & Hv);
      [lia|done|].
    exists (if sg then "-" else "")%string, whole, fraction.
    split; [done|]. split; [destruct sg; auto|]. rewrite Hv. done.
Qed.

Lemma world_file_numbers_have_twelve_decimals_witness :
  exists sign whole fraction : string,
    "0.001000000000"%string = (sign ++ whole ++ "." ++ fraction)%string
    /\ String.length fraction = 12%nat.
Proof.
  destruct (world_file_numbers_have_twelve_decimals Samples.deg_0_001 "0.001000000000")
    as (sign & whole & fraction & Hs & _ & _ & _ & Hf & _); [reflexivity..|].
  exists sign, whole, fraction. exact (conj Hs Hf).
Defined.

(** ** The palette *)




Section PaletteRun.
#[local] Existing Instance B64.Series.engine.


End PaletteRun.
